(** * A shallow embedding of the embed core of rev-sdk-js

    This development models [src/src/embed/VbrickEmbed.ts] (the abstract
    [VbrickEmbed] class) together with the [EventBus] it drives and the
    browser event loop the two of them run in.

    - JavaScript values exchanged over the message channel are [value]s.
    - Closures are identified by reference ([fnref]): the wrappers and
      one-shot listeners allocated by the SDK are [Closure n] with a fresh
      [n]; a function written by the host page is [HostFn l].
    - The embed and its runtime are threaded through a state and exception
      monad [M]; an uncaught JavaScript exception is [Throw].
    - The browser runs one macrotask at a time ([action]): a host script
      calling a public method, an inbound message from the iframe, time
      passing, or a due timer firing. After every macrotask the microtask
      queue (promise reactions) is drained ([microtasks]). *)

From Stdlib Require Import String DecimalString List Bool Arith NArith ZArith Lia.
Import ListNotations.
Open Scope string_scope.
Open Scope list_scope.

(** ** Values *)

Set Warnings "-register-all".

Inductive value : Type :=
| VUndef
| VNum (n : Z)
| VStr (s : string)
| VBool (b : bool)
| VObj (fields : list (string * value)).

Fixpoint lookup_field (k : string) (fs : list (string * value)) : value :=
  match fs with
  | [] => VUndef
  | (k', v) :: fs' => if String.eqb k k' then v else lookup_field k fs'
  end.

(** Property read [o.k] on a value that is not [undefined] (a read on
    [undefined] throws, and [run_body] checks for it first), or the optional
    read [o?.k]: a field of an object, [undefined] on anything else. *)
Definition get (o : value) (k : string) : value :=
  match o with
  | VObj fs => lookup_field k fs
  | _ => VUndef
  end.

(** The own enumerable properties of a string: one per character, keyed
    by its index. *)
Fixpoint string_entries (i : nat) (s : string) : list (string * value) :=
  match s with
  | EmptyString => []
  | String c s' =>
      (NilZero.string_of_uint (Nat.to_uint i), VStr (String c EmptyString)) :: string_entries (S i) s'
  end.

(** The object rest pattern [({status, ...info}) => info] on a payload that
    is not [undefined] (destructuring [undefined] throws, see [run_body]):
    an object loses its [status] field, a string gives its indexed
    characters, a number or boolean gives [{}]. *)
Definition omit_status (o : value) : value :=
  match o with
  | VObj fs => VObj (filter (fun kv => negb (String.eqb (fst kv) "status")) fs)
  | VStr s => VObj (string_entries 0 s)
  | _ => VObj []
  end.

(** [enum PlayerStatus] (a string enum). *)
Module PlayerStatus.
Definition Initializing := VStr "Initializing".
Definition Playing := VStr "Playing".
Definition Paused := VStr "Paused".
Definition Buffering := VStr "Buffering".
Definition Seeking := VStr "Seeking".
Definition Ended := VStr "Ended".
Definition Error := VStr "Error".
End PlayerStatus.

(** [enum TokenType] and [interface VbrickSDKToken]. *)
Inductive TokenType := JWT | ACCESS_TOKEN | GUEST_REGISTRATION.

Record VbrickSDKToken := {
  type : TokenType;
  tvalue : string;
  issuer : string
}.

(** The part of [VbrickEmbedConfig] read by the embed core. Other options
    (width, height, className, ...) only shape the iframe element and its
    URL. [timeoutSeconds] is a whole number of seconds here. *)
Record VbrickEmbedConfig := {
  token : option VbrickSDKToken;
  timeoutSeconds : option Z
}.

(** The options of [VbrickVideoEmbedConfig] read by [getEmbedQuery], beside
    the core [VbrickEmbedConfig]; an option left out is [None]. *)
Record VideoEmbedConfig := {
  core : VbrickEmbedConfig;
  popupAuth : option bool;
  accentColor : option string;
  autoplay : option bool;
  forcedCaptions : option bool;
  playInLoop : option bool;
  hideSubtitles : option bool;
  hideOverlayControls : option bool;
  hideChapters : option bool;
  hideFullscreen : option bool;
  hidePlayControls : option bool;
  hideSettings : option bool;
  startAt : option string
}.

Definition opt_bool (o : option bool) : value :=
  match o with Some b => VBool b | None => VUndef end.

Definition opt_str (o : option string) : value :=
  match o with Some s => VStr s | None => VUndef end.

(** [getEmbedQuery(config)]: [!!config.token] is [true] exactly when a token
    object is present; [!config.token && (...)] is the boolean [false] when
    it is, and the string ['true'] or ['false'] otherwise. *)
Definition getEmbedQuery (config : VideoEmbedConfig) : value :=
  let tk := match token (core config) with Some _ => true | None => false end in
  VObj [("tk", VBool tk);
        ("popupAuth", if tk then VBool false
                      else VStr (match popupAuth config with
                                 | Some true => "true" | _ => "false" end));
        ("accent", opt_str (accentColor config));
        ("autoplay", opt_bool (autoplay config));
        ("forceClosedCaptions", opt_bool (forcedCaptions config));
        ("loopVideo", opt_bool (playInLoop config));
        ("noCc", opt_bool (hideSubtitles config));
        ("noCenterButtons", opt_bool (hideOverlayControls config));
        ("noChapters", opt_bool (hideChapters config));
        ("noFullscreen", opt_bool (hideFullscreen config));
        ("noPlayBar", opt_bool (hidePlayControls config));
        ("noSettings", opt_bool (hideSettings config));
        ("startAt", opt_str (startAt config))].

(** ** References, listeners, timers, promises *)

Inductive fnref := Closure (n : nat) | HostFn (l : nat).

Definition fnref_eqb (a b : fnref) : bool :=
  match a, b with
  | Closure n, Closure m => Nat.eqb n m
  | HostFn n, HostFn m => Nat.eqb n m
  | _, _ => false
  end.

(** What a listener registered on the bus does. *)
Inductive body :=
| OnVideoLoaded                 (* initializeEmbed, 'videoLoaded' *)
| OnWebcastLoaded               (* initializeEmbed, 'webcastLoaded' *)
| OnPlayerStatusChanged         (* initializeEmbed, 'playerStatusChanged' *)
| OnSubtitlesChanged            (* initializeEmbed, 'subtitlesChanged' *)
| Deferred (l : nat) (ev : string)
    (* on(): (e) => setTimeout(() => listener(e)) *)
| AwaitSuccess (a : nat)        (* awaitEvent: one-shot success listener *)
| AwaitError (a : nat).         (* awaitEvent: one-shot error listener *)

Record entry := { en_event : string; en_ref : fnref; en_body : body }.

Record EventBus := { listeners : list entry; destroyed : bool }.

Inductive task :=
| CallListener (l : nat) (ev : string) (v : value)
| AwaitTimeout (a : nat).

Record timer := { t_id : nat; t_due : N; t_task : task }.

Inductive pstate := Pending | Fulfilled (v : value) | Rejected (e : value).

Record awaiting := {
  a_id : nat;
  a_ok_event : string; a_ok : fnref;
  a_err_event : string; a_err : fnref;
  a_timer : option nat
}.

(** The pending [Promise.all([...]).then(...).catch(...)] chain of one
    [initialize()] call. *)
Record handshake := {
  hs_promise : nat;
  hs_token : pstate;
  hs_load : nat;
  hs_timeout : option Z;
  hs_done : bool
}.

(** The suspended body of one [updateToken()] call. *)
Inductive update_stage :=
| UTokenResolved (r : pstate)   (* suspended at [await this.initializeToken()] *)
| UAwaiting (a : nat)           (* suspended at [await this.eventBus.awaitEvent(...)] *)
| UDone.

Record update := { u_promise : nat; u_stage : update_stage }.

(** Observable effects. *)
Inductive log_entry :=
| Sent (ev : string) (v : value)            (* postMessage to the iframe *)
| LocalError (msg : string) (cause : value) (* local error observers *)
| Called (l : nat) (ev : string) (v : value) (status : value).
    (* host listener [l] invoked with [v]; [status] is [playerStatus] then *)

(** ** The embed object and the world *)

Record VbrickEmbed := {
  _playerStatus : value;
  _volume : value;
  _currentSubtitles : value;
  _info : value;
  iframe : option nat;
  eventBus : option EventBus;
  init : option nat;
  config : VbrickEmbedConfig
}.

Record world := {
  emb : VbrickEmbed;
  container : list nat;
  log : list log_entry;
  timers : list timer;
  now : N;
  awaits : list awaiting;
  promises : list (nat * pstate);
  handshakes : list handshake;
  updates : list update;
  next : nat
}.

(** [new VbrickEmbed(id, config, container)]: field initialisers. *)
Definition new_embed (cfg : VbrickEmbedConfig) : VbrickEmbed := {|
  _playerStatus := PlayerStatus.Initializing;
  _volume := VUndef;
  _currentSubtitles := VObj [("enabled", VBool false)];
  _info := VUndef;
  iframe := None;
  eventBus := None;
  init := None;
  config := cfg
|}.

Definition fresh_world (cfg : VbrickEmbedConfig) : world := {|
  emb := new_embed cfg; container := []; log := []; timers := []; now := 0%N;
  awaits := []; promises := []; handshakes := []; updates := []; next := 0
|}.

(** ** Primitive updates of the world

    Every change of state goes through one of these. There is no update of
    [_volume]: the source never assigns it. *)

Definition map_emb (f : VbrickEmbed -> VbrickEmbed) (w : world) : world := {|
  emb := f (emb w); container := container w; log := log w; timers := timers w;
  now := now w; awaits := awaits w; promises := promises w;
  handshakes := handshakes w; updates := updates w; next := next w
|}.

Definition with_status (s : value) (m : VbrickEmbed) : VbrickEmbed := {|
  _playerStatus := s; _volume := _volume m; _currentSubtitles := _currentSubtitles m;
  _info := _info m; iframe := iframe m; eventBus := eventBus m; init := init m;
  config := config m |}.
Definition with_subtitles (s : value) (m : VbrickEmbed) : VbrickEmbed := {|
  _playerStatus := _playerStatus m; _volume := _volume m; _currentSubtitles := s;
  _info := _info m; iframe := iframe m; eventBus := eventBus m; init := init m;
  config := config m |}.
Definition with_info (i : value) (m : VbrickEmbed) : VbrickEmbed := {|
  _playerStatus := _playerStatus m; _volume := _volume m;
  _currentSubtitles := _currentSubtitles m; _info := i; iframe := iframe m;
  eventBus := eventBus m; init := init m; config := config m |}.
Definition with_iframe (f : option nat) (m : VbrickEmbed) : VbrickEmbed := {|
  _playerStatus := _playerStatus m; _volume := _volume m;
  _currentSubtitles := _currentSubtitles m; _info := _info m; iframe := f;
  eventBus := eventBus m; init := init m; config := config m |}.
Definition with_bus (b : option EventBus) (m : VbrickEmbed) : VbrickEmbed := {|
  _playerStatus := _playerStatus m; _volume := _volume m;
  _currentSubtitles := _currentSubtitles m; _info := _info m; iframe := iframe m;
  eventBus := b; init := init m; config := config m |}.
Definition with_init (p : option nat) (m : VbrickEmbed) : VbrickEmbed := {|
  _playerStatus := _playerStatus m; _volume := _volume m;
  _currentSubtitles := _currentSubtitles m; _info := _info m; iframe := iframe m;
  eventBus := eventBus m; init := p; config := config m |}.
Definition with_token (t : option VbrickSDKToken) (m : VbrickEmbed) : VbrickEmbed := {|
  _playerStatus := _playerStatus m; _volume := _volume m;
  _currentSubtitles := _currentSubtitles m; _info := _info m; iframe := iframe m;
  eventBus := eventBus m; init := init m;
  config := {| token := t; timeoutSeconds := timeoutSeconds (config m) |} |}.

Definition map_container (f : list nat -> list nat) (w : world) : world := {|
  emb := emb w; container := f (container w); log := log w; timers := timers w;
  now := now w; awaits := awaits w; promises := promises w;
  handshakes := handshakes w; updates := updates w; next := next w |}.
Definition add_log (e : log_entry) (w : world) : world := {|
  emb := emb w; container := container w; log := log w ++ [e]; timers := timers w;
  now := now w; awaits := awaits w; promises := promises w;
  handshakes := handshakes w; updates := updates w; next := next w |}.
Definition map_timers (f : list timer -> list timer) (w : world) : world := {|
  emb := emb w; container := container w; log := log w; timers := f (timers w);
  now := now w; awaits := awaits w; promises := promises w;
  handshakes := handshakes w; updates := updates w; next := next w |}.
Definition advance (d : N) (w : world) : world := {|
  emb := emb w; container := container w; log := log w; timers := timers w;
  now := (now w + d)%N; awaits := awaits w; promises := promises w;
  handshakes := handshakes w; updates := updates w; next := next w |}.
Definition map_awaits (f : list awaiting -> list awaiting) (w : world) : world := {|
  emb := emb w; container := container w; log := log w; timers := timers w;
  now := now w; awaits := f (awaits w); promises := promises w;
  handshakes := handshakes w; updates := updates w; next := next w |}.
Definition set_promise (p : nat) (s : pstate) (w : world) : world := {|
  emb := emb w; container := container w; log := log w; timers := timers w;
  now := now w; awaits := awaits w; promises := (p, s) :: promises w;
  handshakes := handshakes w; updates := updates w; next := next w |}.
Definition map_handshakes (f : list handshake -> list handshake) (w : world) : world := {|
  emb := emb w; container := container w; log := log w; timers := timers w;
  now := now w; awaits := awaits w; promises := promises w;
  handshakes := f (handshakes w); updates := updates w; next := next w |}.
Definition map_updates (f : list update -> list update) (w : world) : world := {|
  emb := emb w; container := container w; log := log w; timers := timers w;
  now := now w; awaits := awaits w; promises := promises w;
  handshakes := handshakes w; updates := f (updates w); next := next w |}.
Definition bump (w : world) : world := {|
  emb := emb w; container := container w; log := log w; timers := timers w;
  now := now w; awaits := awaits w; promises := promises w;
  handshakes := handshakes w; updates := updates w; next := S (next w) |}.

(** The settled state of a promise: the most recent binding wins. *)
Fixpoint lookup_promise (p : nat) (ps : list (nat * pstate)) : pstate :=
  match ps with
  | [] => Pending
  | (q, s) :: ps' => if Nat.eqb p q then s else lookup_promise p ps'
  end.

Definition promise_state (w : world) (p : nat) : pstate := lookup_promise p (promises w).

Definition status (w : world) : value := _playerStatus (emb w).

(** ** The state and exception monad *)

Inductive res (A : Type) := Ok (a : A) | Throw (e : value).
Arguments Ok {A} a.
Arguments Throw {A} e.

Definition M (A : Type) := world -> world * res A.

Definition ret {A} (a : A) : M A := fun w => (w, Ok a).
Definition bind {A B} (m : M A) (k : A -> M B) : M B := fun w =>
  match m w with
  | (w', Ok a) => k a w'
  | (w', Throw e) => (w', Throw e)
  end.
Definition throw {A} (e : value) : M A := fun w => (w, Throw e).
Definition try_catch {A} (m : M A) (h : value -> M A) : M A := fun w =>
  match m w with
  | (w', Ok a) => (w', Ok a)
  | (w', Throw e) => h e w'
  end.
Definition modify (f : world -> world) : M unit := fun w => (f w, Ok tt).
Definition gets {A} (f : world -> A) : M A := fun w => (w, Ok (f w)).
Definition fresh : M nat := fun w => (bump w, Ok (next w)).

Notation "x <- m ;; k" := (bind m (fun x => k))
  (at level 61, m at next level, right associativity).
Notation "m ;; k" := (bind m (fun _ => k))
  (at level 61, right associativity).

(** Reading a property of [undefined] throws. *)
Definition TypeError : value := VStr "TypeError".

(** ** The Event Bus

    Modelled from the spec: the [EventBus] class (imported by
    VbrickEmbed.ts from './EventBus') is not among the sources. Its methods
    follow the spec, section 4.1: [on]/[off] register and remove a listener
    by reference (removal of an absent reference does nothing); [publish]
    sends one message to the bound window and does nothing after [destroy];
    [publishError code] publishes a synthetic [error] event; [awaitEvent]
    registers a one-shot listener on both names plus a timer when a nonzero
    timeout is given, and whichever fires first removes the two listeners
    and clears the timer; [emitLocalError] reaches local observers only;
    [destroy] stops inbound dispatch and outbound publishing. Inbound
    messages that pass the origin and source filter are dispatched
    synchronously, in registration order, to a snapshot of the listeners
    registered for the event name. *)

(** [this.eventBus], throwing when it is still [undefined]. *)
Definition the_bus : M EventBus := fun w =>
  match eventBus (emb w) with
  | Some b => (w, Ok b)
  | None => (w, Throw TypeError)
  end.

Definition put_bus (b : EventBus) : M unit := modify (map_emb (with_bus (Some b))).

Definition bus_on (ev : string) (bd : body) : M fnref :=
  b <- the_bus ;;
  r <- fresh ;;
  put_bus {| listeners := listeners b ++ [{| en_event := ev; en_ref := Closure r; en_body := bd |}];
             destroyed := destroyed b |} ;;
  ret (Closure r).

Definition drop_entries (ev : string) (f : fnref) (es : list entry) : list entry :=
  filter (fun e => negb (String.eqb (en_event e) ev && fnref_eqb (en_ref e) f)) es.

Definition bus_off (ev : string) (f : fnref) : M unit :=
  b <- the_bus ;;
  put_bus {| listeners := drop_entries ev f (listeners b); destroyed := destroyed b |}.

Definition bus_publish (ev : string) (v : value) : M unit :=
  b <- the_bus ;;
  if destroyed b then ret tt else modify (add_log (Sent ev v)).

Definition bus_publishError (code : string) : M unit :=
  bus_publish "error" (VObj [("msg", VStr code)]).

Definition bus_emitLocalError (msg : string) (cause : value) : M unit :=
  the_bus ;; modify (add_log (LocalError msg cause)).

Definition bus_destroy : M unit :=
  b <- the_bus ;;
  put_bus {| listeners := listeners b; destroyed := true |}.

(** [setTimeout(fn, delay)] and [clearTimeout(id)]. *)
Definition setTimeout (t : task) (delay : Z) : M nat :=
  id <- fresh ;;
  modify (fun w => map_timers (fun ts => ts ++ [{| t_id := id; t_due := (now w + Z.to_N delay)%N;
                                                 t_task := t |}]) w) ;;
  ret id.

Definition clearTimeout (id : nat) : M unit :=
  modify (map_timers (filter (fun t => negb (Nat.eqb (t_id t) id)))).

Fixpoint find_await (a : nat) (l : list awaiting) : option awaiting :=
  match l with
  | [] => None
  | r :: l' => if Nat.eqb (a_id r) a then Some r else find_await a l'
  end.

Definition bus_awaitEvent (ok err : string) (timeout : option Z) : M nat :=
  a <- fresh ;;
  rok <- bus_on ok (AwaitSuccess a) ;;
  rerr <- bus_on err (AwaitError a) ;;
  tm <- (match timeout with
         | Some ms => if Z.eqb ms 0 then ret None
                      else (t <- setTimeout (AwaitTimeout a) ms ;; ret (Some t))
         | None => ret None
         end) ;;
  modify (map_awaits (fun l => l ++ [{| a_id := a; a_ok_event := ok; a_ok := rok;
                                        a_err_event := err; a_err := rerr; a_timer := tm |}])) ;;
  modify (set_promise a Pending) ;;
  ret a.

(** Removal of the awaiting listeners from the bus that holds them. *)
Definition unlisten (ev : string) (f : fnref) : M unit := fun w =>
  match eventBus (emb w) with
  | Some b => put_bus {| listeners := drop_entries ev f (listeners b); destroyed := destroyed b |} w
  | None => (w, Ok tt)
  end.

(** The first of success, error and timeout settles the [awaitEvent]
    promise and cancels the other two. *)
Definition settle_await (a : nat) (s : pstate) : M unit := fun w =>
  match find_await a (awaits w), promise_state w a with
  | Some r, Pending =>
      (unlisten (a_ok_event r) (a_ok r) ;;
       unlisten (a_err_event r) (a_err r) ;;
       (match a_timer r with Some t => clearTimeout t | None => ret tt end) ;;
       modify (set_promise a s)) w
  | _, _ => (w, Ok tt)
  end.

(** ** The embed: [VbrickEmbed] *)

(** The internal listeners of [initializeEmbed()]. *)
Definition run_body (bd : body) (e : value) : M unit :=
  match bd with
  | OnVideoLoaded =>
      (* this._info = e; this._playerStatus = PlayerStatus.Paused; *)
      modify (map_emb (with_info e)) ;;
      modify (map_emb (with_status PlayerStatus.Paused))
  | OnWebcastLoaded =>
      (* ({status, ...info}) => { this._info = info; } *)
      match e with
      | VUndef => throw TypeError               (* destructuring undefined *)
      | _ => modify (map_emb (with_info (omit_status e)))
      end
  | OnPlayerStatusChanged =>
      (* e => this._playerStatus = e.status *)
      match e with
      | VUndef => throw TypeError               (* undefined.status *)
      | _ => modify (map_emb (with_status (get e "status")))
      end
  | OnSubtitlesChanged =>
      (* subtitles => { this._currentSubtitles = subtitles; } *)
      modify (map_emb (with_subtitles e))
  | Deferred l ev =>
      (* (e) => setTimeout(() => listener(e)) *)
      setTimeout (CallListener l ev e) 0 ;; ret tt
  | AwaitSuccess a => settle_await a (Fulfilled e)
  | AwaitError a => settle_await a (Rejected e)
  end.

(** Dispatch of one occurrence to the listeners registered for it, in
    order. A listener that throws ends the dispatch with that error. *)
Fixpoint run_bodies (es : list entry) (ev : string) (e : value) : M unit :=
  match es with
  | [] => ret tt
  | en :: es' =>
      (if String.eqb (en_event en) ev then run_body (en_body en) e else ret tt) ;;
      run_bodies es' ev e
  end.

(** The bus's window [message] handler, for a message that passed the
    origin and source filter. *)
Definition receive (ev : string) (e : value) : M unit := fun w =>
  match eventBus (emb w) with
  | Some b => if destroyed b then (w, Ok tt) else run_bodies (listeners b) ev e w
  | None => (w, Ok tt)
  end.

Definition play : M unit := bus_publish "playVideo" VUndef.
Definition pause : M unit := bus_publish "pauseVideo" VUndef.
Definition setVolume (volume : value) : M unit :=
  bus_publish "setVolume" (VObj [("volume", volume)]).
Definition setSubtitles (subtitles : value) : M unit :=
  bus_publish "setSubtitles" subtitles.

Definition initializeToken : M pstate := fun w =>
  (w, Ok (match token (config (emb w)) with
          | None => Fulfilled VUndef
          | Some t =>
              match type t with
              | ACCESS_TOKEN => Fulfilled (VObj [("accessToken", VStr (tvalue t))])
              | _ => Rejected (VStr "Unsupported token type")
              end
          end)).

Definition initializeEmbed : M unit :=
  bus_on "videoLoaded" OnVideoLoaded ;;
  bus_on "webcastLoaded" OnWebcastLoaded ;;
  bus_on "playerStatusChanged" OnPlayerStatusChanged ;;
  bus_on "subtitlesChanged" OnSubtitlesChanged ;;
  ret tt.

(** [document.createElement('iframe')] and [container.appendChild]. *)
Definition render : M nat :=
  f <- fresh ;;
  modify (map_container (fun c => c ++ [f])) ;;
  ret f.

(** [(this.config.timeoutSeconds * 1000) || undefined]: [undefined * 1000]
    is [NaN], and [NaN] and [0] are falsy. *)
Definition timeout_of (ts : option Z) : option Z :=
  match ts with
  | None => None
  | Some s => if Z.eqb (s * 1000)%Z 0 then None else Some (s * 1000)%Z
  end.

Definition initialize : M nat := fun w =>
  match init (emb w) with
  | Some p => (w, Ok p)
  | None =>
      (f <- render ;;
       modify (map_emb (with_iframe (Some f))) ;;
       modify (map_emb (with_bus (Some {| listeners := []; destroyed := false |}))) ;;
       initializeEmbed ;;
       let timeout := timeout_of (timeoutSeconds (config (emb w))) in
       tk <- initializeToken ;;
       load <- bus_awaitEvent "load" "error" timeout ;;
       p <- fresh ;;
       modify (set_promise p Pending) ;;
       modify (map_handshakes (fun hs => hs ++ [{| hs_promise := p; hs_token := tk;
                                                    hs_load := load; hs_timeout := timeout;
                                                    hs_done := false |}])) ;;
       modify (map_emb (with_init (Some p))) ;;
       ret p) w
  end.

(** The [.then] callback of the handshake. *)
Definition init_then (tk : value) (timeout : option Z) : M pstate :=
  bus_publish "authenticated" (VObj [("token", tk)]) ;;
  bus_awaitEvent "authChanged" "error" timeout ;;
  ret (Fulfilled VUndef).

(** The [.catch] callback of the handshake. *)
Definition init_catch (err : value) : M pstate :=
  modify (map_emb (with_status PlayerStatus.Error)) ;;
  bus_publishError "initializationFailed" ;;
  bus_emitLocalError "Error loading embed content" err ;;
  ret (Rejected err).

(** The settled value of [Promise.all([initializeToken(), awaitEvent(...)])],
    if it has settled. *)
Definition all_settled (w : world) (h : handshake) : option pstate :=
  match hs_token h with
  | Rejected e => Some (Rejected e)
  | Pending => None
  | Fulfilled tk =>
      match promise_state w (hs_load h) with
      | Pending => None
      | Rejected e => Some (Rejected e)
      | Fulfilled _ => Some (Fulfilled tk)
      end
  end.

Definition mark_done (p : nat) : M unit :=
  modify (map_handshakes (map (fun h =>
    if Nat.eqb (hs_promise h) p
    then {| hs_promise := hs_promise h; hs_token := hs_token h; hs_load := hs_load h;
            hs_timeout := hs_timeout h; hs_done := true |}
    else h))).

Definition handshake_reaction (h : handshake) : M unit := fun w =>
  if hs_done h then (w, Ok tt) else
  match all_settled w h with
  | None => (w, Ok tt)
  | Some r =>
      (out <- try_catch
                (try_catch
                   (match r with
                    | Fulfilled tk => init_then tk (hs_timeout h)
                    | Rejected e => throw e
                    | Pending => ret Pending
                    end)
                   init_catch)
                (fun e => ret (Rejected e)) ;;
       modify (set_promise (hs_promise h) out) ;;
       mark_done (hs_promise h)) w
  end.

Definition set_stage (p : nat) (s : update_stage) : M unit :=
  modify (map_updates (map (fun u =>
    if Nat.eqb (u_promise u) p then {| u_promise := p; u_stage := s |} else u))).

(** [updateToken(newToken)], up to its first [await]. *)
Definition updateToken (newToken : VbrickSDKToken) : M nat :=
  modify (map_emb (with_token (Some newToken))) ;;
  tk <- initializeToken ;;
  p <- fresh ;;
  modify (set_promise p Pending) ;;
  modify (map_updates (fun us => us ++ [{| u_promise := p; u_stage := UTokenResolved tk |}])) ;;
  ret p.

(** Resumption of a suspended [updateToken] body. The [catch] block logs
    and rethrows, so the returned promise rejects with the same error. *)
Definition update_reaction (u : update) : M unit := fun w =>
  match u_stage u with
  | UDone => (w, Ok tt)
  | UTokenResolved (Rejected e) =>
      (modify (set_promise (u_promise u) (Rejected e)) ;; set_stage (u_promise u) UDone) w
  | UTokenResolved Pending => (w, Ok tt)
  | UTokenResolved (Fulfilled tk) =>
      (r <- try_catch
              (bus_publish "authChanged" (VObj [("token", tk)]) ;;
               a <- bus_awaitEvent "authChanged" "error" None ;;
               ret (inl a))
              (fun e => ret (inr e)) ;;
       match r with
       | inl a => set_stage (u_promise u) (UAwaiting a)
       | inr e => modify (set_promise (u_promise u) (Rejected e)) ;; set_stage (u_promise u) UDone
       end) w
  | UAwaiting a =>
      match promise_state w a with
      | Pending => (w, Ok tt)
      | Fulfilled _ =>
          (modify (set_promise (u_promise u) (Fulfilled VUndef)) ;; set_stage (u_promise u) UDone) w
      | Rejected e =>
          (modify (set_promise (u_promise u) (Rejected e)) ;; set_stage (u_promise u) UDone) w
      end
  end.

Fixpoint run_all {A} (f : A -> M unit) (l : list A) : M unit :=
  match l with
  | [] => ret tt
  | x :: l' => f x ;; run_all f l'
  end.

(** The microtask checkpoint after a macrotask: every pending promise
    reaction that is ready runs. *)
Definition microtasks : M unit := fun w =>
  (run_all handshake_reaction (handshakes w) ;;
   (fun w' => run_all update_reaction (updates w') w')) w.

Definition destroy : M unit :=
  f <- gets (fun w => iframe (emb w)) ;;
  (match f with
   | None => throw TypeError                   (* this.iframe.remove() *)
   | Some n => modify (map_container (filter (fun m => negb (Nat.eqb m n))))
   end) ;;
  bus_destroy ;;
  modify (map_emb (with_init None)) ;;
  ret tt.                                       (* this.unsubscribes is never assigned *)

Definition on (event : string) (listener : nat) : M unit :=
  bus_on event (Deferred listener event) ;; ret tt.

Definition off (event : string) (listener : nat) : M unit :=
  bus_off event (HostFn listener).

(** A timer callback. A host listener is observed through its call. *)
Definition run_task (t : task) : M unit :=
  match t with
  | CallListener l ev e =>
      st <- gets status ;;
      modify (add_log (Called l ev e st))
  | AwaitTimeout a => settle_await a (Rejected (VStr "timeout"))
  end.

Fixpoint find_timer (id : nat) (ts : list timer) : option timer :=
  match ts with
  | [] => None
  | t :: ts' => if Nat.eqb (t_id t) id then Some t else find_timer id ts'
  end.

(** Firing timer [id], when it is still scheduled and due. *)
Definition fire (id : nat) : M unit := fun w =>
  match find_timer id (timers w) with
  | Some t =>
      if N.leb (t_due t) (now w)
      then (clearTimeout id ;; run_task (t_task t)) w
      else (w, Ok tt)
  | None => (w, Ok tt)
  end.

(** ** The event loop *)

Inductive host_call :=
| Initialize
| Play
| Pause
| SetVolume (v : value)
| SetSubtitles (v : value)
| On (event : string) (listener : nat)
| Off (event : string) (listener : nat)
| UpdateToken (t : VbrickSDKToken)
| Destroy.

Inductive retval := RUnit | RPromise (p : nat).

Definition call (c : host_call) : M retval :=
  match c with
  | Initialize => p <- initialize ;; ret (RPromise p)
  | Play => play ;; ret RUnit
  | Pause => pause ;; ret RUnit
  | SetVolume v => setVolume v ;; ret RUnit
  | SetSubtitles v => setSubtitles v ;; ret RUnit
  | On ev l => on ev l ;; ret RUnit
  | Off ev l => off ev l ;; ret RUnit
  | UpdateToken t => p <- updateToken t ;; ret (RPromise p)
  | Destroy => destroy ;; ret RUnit
  end.

Inductive action :=
| Host (c : host_call)                 (* a host script calls a public method *)
| Message (ev : string) (v : value)    (* a message from the bound iframe window *)
| Advance (ms : N)                     (* time passes *)
| FireTimer (id : nat).                (* a due timer runs *)

Definition exec (a : action) : M retval :=
  match a with
  | Host c => call c
  | Message ev v => receive ev v ;; ret RUnit
  | Advance d => modify (advance d) ;; ret RUnit
  | FireTimer id => fire id ;; ret RUnit
  end.

Definition step (w : world) (a : action) : world * res retval :=
  let (w1, r) := exec a w in (fst (microtasks w1), r).

Fixpoint run (w : world) (acts : list action) : world :=
  match acts with
  | [] => w
  | a :: acts' => run (fst (step w a)) acts'
  end.

(** Observation helpers. *)
Definition calls (l : list log_entry) : list log_entry :=
  filter (fun e => match e with Called _ _ _ _ => true | _ => false end) l.

Definition sent (l : list log_entry) : list (string * value) :=
  flat_map (fun e => match e with Sent ev v => [(ev, v)] | _ => [] end) l.

Definition timer_ids (w : world) : list nat := map t_id (timers w).

(** * Frame lemmas

    [keeps P m]: running [m] from any world ends in a world related to the
    start by the preorder [P]. Each primitive update is assumed to respect
    [P]; a lemma below only depends on the updates its operation uses. *)

Section Frame.
Variable P : world -> world -> Prop.
Hypothesis P_refl : forall w, P w w.
Hypothesis P_trans : forall a b c, P a b -> P b c -> P a c.

Definition keeps {A} (m : M A) : Prop := forall w, P w (fst (m w)).

Lemma keeps_ret {A} (a : A) : keeps (ret a).
Proof. intro w; apply P_refl. Qed.

Lemma keeps_throw {A} (e : value) : keeps (A := A) (throw e).
Proof. intro w; apply P_refl. Qed.

Lemma keeps_gets {A} (f : world -> A) : keeps (gets f).
Proof. intro w; apply P_refl. Qed.

Lemma keeps_bind {A B} (m : M A) (k : A -> M B) :
  keeps m -> (forall a, keeps (k a)) -> keeps (bind m k).
Proof.
  intros Hm Hk w; unfold bind.
  specialize (Hm w); destruct (m w) as [w' [a|e]]; simpl in *;
    [exact (P_trans _ _ _ Hm (Hk a w')) | exact Hm].
Qed.

Lemma keeps_try_catch {A} (m : M A) (h : value -> M A) :
  keeps m -> (forall e, keeps (h e)) -> keeps (try_catch m h).
Proof.
  intros Hm Hh w; unfold try_catch.
  specialize (Hm w); destruct (m w) as [w' [a|e]]; simpl in *;
    [exact Hm | exact (P_trans _ _ _ Hm (Hh e w'))].
Qed.

Lemma keeps_modify (f : world -> world) :
  (forall w, P w (f w)) -> keeps (modify f).
Proof. intros Hf w; apply Hf. Qed.

Hypothesis H_bump : forall w, P w (bump w).
Hypothesis H_bus : forall w b, P w (map_emb (with_bus (Some b)) w).
Hypothesis H_status : forall w s, P w (map_emb (with_status s) w).
Hypothesis H_info : forall w i, P w (map_emb (with_info i) w).
Hypothesis H_subs : forall w s, P w (map_emb (with_subtitles s) w).
Hypothesis H_token : forall w t, P w (map_emb (with_token t) w).
Hypothesis H_iframe : forall w f, P w (map_emb (with_iframe (Some f)) w).
Hypothesis H_init : forall w p, P w (map_emb (with_init p) w).
Hypothesis H_container : forall w f, P w (map_container f w).
Hypothesis H_sent : forall w ev v, P w (add_log (Sent ev v) w).
Hypothesis H_local : forall w m c, P w (add_log (LocalError m c) w).
Hypothesis H_called : forall w l ev v s, P w (add_log (Called l ev v s) w).
Hypothesis H_timers : forall w f, P w (map_timers f w).
Hypothesis H_advance : forall w d, P w (advance d w).
Hypothesis H_awaits : forall w f, P w (map_awaits f w).
Hypothesis H_promise : forall w p s, P w (set_promise p s w).
Hypothesis H_hs : forall w f, P w (map_handshakes f w).
Hypothesis H_up : forall w f, P w (map_updates f w).

Create HintDb keeps.
#[local] Hint Resolve keeps_ret keeps_throw keeps_gets : keeps.

Ltac keep :=
  repeat match goal with
  | |- keeps (bind _ _) => apply keeps_bind; [|intro]
  | |- keeps (try_catch _ _) => apply keeps_try_catch; [|intro]
  | |- keeps (modify _) => apply keeps_modify; intro; cbv beta
  | |- keeps (match ?x with _ => _ end) => destruct x
  | |- keeps (if ?b then _ else _) => destruct b
  | |- P ?w (?f ?w) => solve [eauto]
  | |- keeps _ => solve [eauto with keeps]
  end.

Lemma keeps_fresh : keeps fresh.
Proof. intro w; apply H_bump. Qed.
#[local] Hint Resolve keeps_fresh : keeps.

Lemma keeps_the_bus : keeps the_bus.
Proof. intro w; unfold the_bus; destruct (eventBus (emb w)); apply P_refl. Qed.
#[local] Hint Resolve keeps_the_bus : keeps.

Lemma keeps_put_bus b : keeps (put_bus b).
Proof. unfold put_bus; keep. Qed.
#[local] Hint Resolve keeps_put_bus : keeps.

Lemma keeps_bus_on ev bd : keeps (bus_on ev bd).
Proof. unfold bus_on; keep. Qed.
Lemma keeps_bus_off ev f : keeps (bus_off ev f).
Proof. unfold bus_off; keep. Qed.
Lemma keeps_bus_publish ev v : keeps (bus_publish ev v).
Proof. unfold bus_publish; keep. Qed.
#[local] Hint Resolve keeps_bus_on keeps_bus_off keeps_bus_publish : keeps.

Lemma keeps_bus_publishError c : keeps (bus_publishError c).
Proof. unfold bus_publishError; keep. Qed.
Lemma keeps_bus_emitLocalError m c : keeps (bus_emitLocalError m c).
Proof. unfold bus_emitLocalError; keep. Qed.
Lemma keeps_bus_destroy : keeps bus_destroy.
Proof. unfold bus_destroy; keep. Qed.
Lemma keeps_setTimeout t d : keeps (setTimeout t d).
Proof. unfold setTimeout; keep. Qed.
Lemma keeps_clearTimeout id : keeps (clearTimeout id).
Proof. unfold clearTimeout; keep. Qed.
#[local] Hint Resolve keeps_bus_publishError keeps_bus_emitLocalError keeps_bus_destroy
  keeps_setTimeout keeps_clearTimeout : keeps.

Lemma keeps_bus_awaitEvent ok err t : keeps (bus_awaitEvent ok err t).
Proof. unfold bus_awaitEvent; keep. Qed.
Lemma keeps_unlisten ev f : keeps (unlisten ev f).
Proof.
  intro w; unfold unlisten; destruct (eventBus (emb w)); [apply keeps_put_bus | apply P_refl].
Qed.
#[local] Hint Resolve keeps_bus_awaitEvent keeps_unlisten : keeps.

Lemma keeps_settle_await a s : keeps (settle_await a s).
Proof.
  intro w; unfold settle_await.
  destruct (find_await a (awaits w)); [|apply P_refl].
  destruct (promise_state w a); try apply P_refl.
  revert w; change (keeps (unlisten (a_ok_event a0) (a_ok a0) ;;
     unlisten (a_err_event a0) (a_err a0) ;;
     (match a_timer a0 with Some t => clearTimeout t | None => ret tt end) ;;
     modify (set_promise a s))); keep.
Qed.
#[local] Hint Resolve keeps_settle_await : keeps.

Lemma keeps_run_body bd e : keeps (run_body bd e).
Proof. destruct bd; simpl; keep. Qed.
#[local] Hint Resolve keeps_run_body : keeps.

Lemma keeps_run_bodies es ev e : keeps (run_bodies es ev e).
Proof. induction es; simpl; keep. Qed.
#[local] Hint Resolve keeps_run_bodies : keeps.

Lemma keeps_receive ev e : keeps (receive ev e).
Proof.
  intro w; unfold receive; destruct (eventBus (emb w)) as [b|]; [|apply P_refl].
  destruct (destroyed b); [apply P_refl | apply keeps_run_bodies].
Qed.

Lemma keeps_initializeToken : keeps initializeToken.
Proof. intro w; apply P_refl. Qed.
#[local] Hint Resolve keeps_receive keeps_initializeToken : keeps.

Lemma keeps_initializeEmbed : keeps initializeEmbed.
Proof. unfold initializeEmbed; keep. Qed.
Lemma keeps_render : keeps render.
Proof. unfold render; keep. Qed.
#[local] Hint Resolve keeps_initializeEmbed keeps_render : keeps.

Ltac as_keeps :=
  match goal with |- P ?w (fst (?m ?w)) => assert (Hk : keeps m); [|exact (Hk w)] end.

Lemma keeps_initialize : keeps initialize.
Proof.
  intro w; unfold initialize; destruct (init (emb w)); [apply P_refl|].
  as_keeps; keep.
Qed.

Lemma keeps_init_then tk t : keeps (init_then tk t).
Proof. unfold init_then; keep. Qed.
Lemma keeps_init_catch e : keeps (init_catch e).
Proof. unfold init_catch; keep. Qed.
Lemma keeps_mark_done p : keeps (mark_done p).
Proof. unfold mark_done; keep. Qed.
#[local] Hint Resolve keeps_init_then keeps_init_catch keeps_mark_done : keeps.

Lemma keeps_handshake_reaction h : keeps (handshake_reaction h).
Proof.
  intro w; unfold handshake_reaction; destruct (hs_done h); [apply P_refl|].
  destruct (all_settled w h); [|apply P_refl].
  as_keeps; keep.
Qed.

Lemma keeps_set_stage p st : keeps (set_stage p st).
Proof. unfold set_stage; keep. Qed.
#[local] Hint Resolve keeps_handshake_reaction keeps_set_stage : keeps.

Lemma keeps_updateToken t : keeps (updateToken t).
Proof. unfold updateToken; keep. Qed.

Lemma keeps_update_reaction u : keeps (update_reaction u).
Proof.
  intro w; unfold update_reaction; destruct (u_stage u) as [r|a|]; [destruct r| |];
    try apply P_refl; try (as_keeps; keep).
  destruct (promise_state w a); try apply P_refl; as_keeps; keep.
Qed.
#[local] Hint Resolve keeps_updateToken keeps_update_reaction : keeps.

Lemma keeps_run_all {A} (f : A -> M unit) l :
  (forall x, keeps (f x)) -> keeps (run_all f l).
Proof. intro Hf; induction l; simpl; keep. Qed.

Lemma keeps_microtasks : keeps microtasks.
Proof.
  intro w; unfold microtasks.
  apply keeps_bind; [apply keeps_run_all, keeps_handshake_reaction|].
  intros _ w'; apply keeps_run_all, keeps_update_reaction.
Qed.

Lemma keeps_destroy : keeps destroy.
Proof. unfold destroy; keep. Qed.
Lemma keeps_on ev l : keeps (on ev l).
Proof. unfold on; keep. Qed.
Lemma keeps_off ev l : keeps (off ev l).
Proof. unfold off; keep. Qed.
Lemma keeps_run_task t : keeps (run_task t).
Proof. destruct t; simpl; keep. Qed.
#[local] Hint Resolve keeps_destroy keeps_on keeps_off keeps_run_task : keeps.

Lemma keeps_fire id : keeps (fire id).
Proof.
  intro w; unfold fire; destruct (find_timer id (timers w)); [|apply P_refl].
  destruct (N.leb (t_due t) (now w)); [|apply P_refl].
  as_keeps; keep.
Qed.
#[local] Hint Resolve keeps_fire keeps_initialize : keeps.

Lemma keeps_exec a : keeps (exec a).
Proof. destruct a as [c| | |]; simpl; [destruct c; simpl|..]; keep. Qed.

(** Every action but [initialize()] and [destroy()] leaves the iframe,
    the container and [init] alone. *)
Lemma keeps_exec_core a :
  (forall c, a = Host c -> c <> Initialize /\ c <> Destroy) -> keeps (exec a).
Proof.
  intro Ha; destruct a as [c| | |]; simpl; [|keep..].
  destruct (Ha c eq_refl) as [Hi Hd].
  destruct c; simpl; try congruence; keep.
Qed.

End Frame.

(** Keeping one projection of the world unchanged. *)
Definition same {X} (f : world -> X) (w w' : world) : Prop := f w' = f w.

Ltac frame_goals := unfold same; intros; simpl; first [reflexivity | congruence].

Lemma step_fst w a : fst (step w a) = fst (microtasks (fst (exec a w))).
Proof. unfold step; destruct (exec a w); reflexivity. Qed.

Lemma step_snd w a : snd (step w a) = snd (exec a w).
Proof. unfold step; destruct (exec a w); reflexivity. Qed.

Lemma run_app w acts1 acts2 : run w (acts1 ++ acts2) = run (run w acts1) acts2.
Proof. revert w; induction acts1; simpl; auto. Qed.

(** The read-only getters. *)
Definition playerStatus (w : world) : value := _playerStatus (emb w).
Definition volume (w : world) : value := _volume (emb w).
Definition currentSubtitles (w : world) : value := _currentSubtitles (emb w).
Definition info (w : world) : value := _info (emb w).

(** A first [initialize()] allocates the iframe and the bus and records its
    promise in [init]. *)
Lemma initialize_first (w : world) :
  init (emb w) = None ->
  exists w' p, initialize w = (w', Ok p) /\ init (emb w') = Some p /\
               iframe (emb w') <> None /\ eventBus (emb w') <> None.
Proof.
  intro E; unfold initialize, bus_awaitEvent; rewrite E.
  destruct (timeout_of (timeoutSeconds (config (emb w)))) as [ms|];
    [destruct (Z.eqb ms 0)|].
  all: vm_compute; eexists; eexists; split; [reflexivity|].
  all: split; [reflexivity | split; discriminate].
Qed.

Lemma initialize_again (w : world) (p : nat) :
  init (emb w) = Some p -> initialize w = (w, Ok p).
Proof. intro E; unfold initialize; rewrite E; reflexivity. Qed.

(** [run] stays within a preorder when every step does. *)
Lemma run_keeps (P : world -> world -> Prop) (acts : list action) :
  (forall w, P w w) -> (forall a b c, P a b -> P b c -> P a c) ->
  (forall w a, In a acts -> P w (fst (step w a))) ->
  forall w, P w (run w acts).
Proof.
  intros Hr Ht Hs; induction acts as [|a acts IH]; intro w; simpl; [apply Hr|].
  apply Ht with (fst (step w a)); [apply Hs; left; reflexivity|].
  apply IH; intros; apply Hs; right; assumption.
Qed.

Lemma volume_step (w : world) (a : action) : volume (fst (step w a)) = volume w.
Proof.
  rewrite step_fst.
  assert (K1 : keeps (same volume) (exec a)) by (eapply keeps_exec; frame_goals).
  assert (K2 : keeps (same volume) microtasks) by (eapply keeps_microtasks; frame_goals).
  specialize (K1 w); specialize (K2 (fst (exec a w))); unfold same in *; congruence.
Qed.

(** [init] once set is only reset by [destroy()]. *)
Definition init_kept (w w' : world) : Prop := init (emb w) <> None -> init (emb w') = init (emb w).

Lemma init_kept_refl w : init_kept w w.
Proof. intros _; reflexivity. Qed.

Lemma init_kept_trans a b c : init_kept a b -> init_kept b c -> init_kept a c.
Proof.
  unfold init_kept; intros H1 H2 H.
  rewrite H2; [apply H1, H | rewrite H1; assumption].
Qed.

Ltac init_kept_goals :=
  first [ exact init_kept_refl | exact init_kept_trans
        | unfold init_kept; intros; simpl; reflexivity ].

Lemma init_kept_step (w : world) (a : action) :
  a <> Host Destroy -> init_kept w (fst (step w a)).
Proof.
  intro Ha; rewrite step_fst.
  apply init_kept_trans with (fst (exec a w)).
  - assert (Hdec : a = Host Initialize \/
                   (forall c, a = Host c -> c <> Initialize /\ c <> Destroy)).
    { destruct a as [c| | |]; [destruct c|..];
        first [ left; reflexivity | exfalso; apply Ha; reflexivity
              | right; intros c' Hc; inversion Hc; subst; split; discriminate
              | right; intros c' Hc; discriminate ]. }
    destruct Hdec as [->|Hn].
    + unfold init_kept; intro H; simpl.
      destruct (init (emb w)) as [p|] eqn:E; [|congruence].
      unfold bind; rewrite (initialize_again w p E); simpl; first [exact E | symmetry; exact E | reflexivity].
    + eapply keeps_exec_core; try init_kept_goals; exact Hn.
  - eapply keeps_microtasks; init_kept_goals.
Qed.

Lemma first_initialize (w0 : world) :
  exists p, snd (exec (Host Initialize) w0) = Ok (RPromise p) /\
            init (emb (fst (exec (Host Initialize) w0))) = Some p.
Proof.
  simpl; unfold bind.
  destruct (init (emb w0)) as [q|] eqn:E.
  - rewrite (initialize_again _ _ E); simpl; eauto.
  - destruct (initialize_first w0 E) as (w' & p & -> & Hi & _); simpl; eauto.
Qed.

(** The projection of a world the first claim is about, kept by the loop. *)
Lemma init_kept_run (w : world) (acts : list action) :
  ~ In (Host Destroy) acts -> init_kept w (run w acts).
Proof.
  intro Hd; apply run_keeps; [exact init_kept_refl | exact init_kept_trans |].
  intros w' a Ha; apply init_kept_step; intros ->; exact (Hd Ha).
Qed.

Lemma init_kept_microtasks (w : world) : init_kept w (fst (microtasks w)).
Proof. eapply keeps_microtasks; init_kept_goals. Qed.

(** Claim C1. Once [initialize()] has been called, a later call (with any
    activity in between other than [destroy()]) returns the very promise of
    the first call and changes nothing: the iframe, the bus, the internal
    listeners, the token resolution and the handshake are not created
    again. *)
Theorem initialize_memoized (w0 : world) (acts : list action) :
  ~ In (Host Destroy) acts ->
  exists p,
    snd (step w0 (Host Initialize)) = Ok (RPromise p) /\
    (let w2 := run (fst (step w0 (Host Initialize))) acts in
     initialize w2 = (w2, Ok p) /\ snd (step w2 (Host Initialize)) = Ok (RPromise p)).
Proof.
  intro Hd.
  destruct (first_initialize w0) as (p & Hr & Hi).
  exists p; rewrite step_snd; split; [exact Hr|].
  assert (Hi2 : init (emb (run (fst (step w0 (Host Initialize))) acts)) = Some p).
  { rewrite step_fst.
    pose proof (init_kept_microtasks (fst (exec (Host Initialize) w0))) as K1.
    pose proof (init_kept_run (fst (microtasks (fst (exec (Host Initialize) w0)))) acts Hd) as K2.
    unfold init_kept in *; rewrite Hi in K1.
    rewrite K2; rewrite K1; congruence. }
  cbv zeta; split.
  - apply initialize_again, Hi2.
  - rewrite step_snd; simpl; unfold bind; rewrite (initialize_again _ _ Hi2); reflexivity.
Qed.

(** Claim C9 (code bug). The [volume] getter is never updated: whatever
    the embed went through, and even right after a [volumeChanged] event was
    delivered on the bus, it still reads [undefined]. *)
Theorem volume_ignores_volumeChanged (cfg : VbrickEmbedConfig) (acts : list action) (v : value) :
  volume (run (fresh_world cfg) (acts ++ [Message "volumeChanged" v])) = VUndef.
Proof.
  pose proof (run_keeps (same volume) (acts ++ [Message "volumeChanged" v])) as K.
  unfold same in K; rewrite K; [reflexivity | reflexivity | congruence |].
  intros w a _; apply volume_step.
Qed.

(** The iframe stays [undefined] until [initialize()] runs. *)
Definition no_iframe_kept (w w' : world) : Prop :=
  iframe (emb w) = None -> iframe (emb w') = None.

(** Once created, the iframe and the bus are never reset to [undefined]. *)
Definition created_kept (w w' : world) : Prop :=
  (iframe (emb w) <> None -> iframe (emb w') <> None) /\
  (eventBus (emb w) <> None -> eventBus (emb w') <> None).

Ltac kept_goals :=
  unfold no_iframe_kept, created_kept; intros; simpl;
  repeat match goal with H : _ /\ _ |- _ => destruct H end;
  try split; intros; simpl in *; first [discriminate | solve [auto] | congruence].

Lemma no_iframe_step (w : world) (a : action) :
  a <> Host Initialize -> no_iframe_kept w (fst (step w a)).
Proof.
  intro Ha; rewrite step_fst.
  assert (K2 : keeps no_iframe_kept microtasks) by (eapply keeps_microtasks; kept_goals).
  assert (K1 : keeps no_iframe_kept (exec a)).
  { destruct a as [c| | |]; [destruct c|..];
      try (exfalso; apply Ha; reflexivity);
      try (eapply keeps_exec_core; try kept_goals; intros c' Hc; inversion Hc; subst;
           split; discriminate);
      try (eapply keeps_exec_core; try kept_goals; intros c' Hc; discriminate).
    unfold exec, call; eapply keeps_bind; try kept_goals;
      [eapply keeps_destroy; kept_goals | intro; eapply keeps_ret; kept_goals]. }
  intro H; apply (K2 _), (K1 _), H.
Qed.

Lemma created_step (w : world) (a : action) : created_kept w (fst (step w a)).
Proof.
  rewrite step_fst.
  assert (K1 : keeps created_kept (exec a)) by (eapply keeps_exec; kept_goals).
  assert (K2 : keeps created_kept microtasks) by (eapply keeps_microtasks; kept_goals).
  destruct (K1 w) as [A1 B1]; destruct (K2 (fst (exec a w))) as [A2 B2].
  split; auto.
Qed.

Lemma destroy_ok (w : world) :
  iframe (emb w) <> None -> eventBus (emb w) <> None ->
  snd (destroy w) = Ok tt /\ iframe (emb (fst (destroy w))) <> None /\
  eventBus (emb (fst (destroy w))) <> None.
Proof.
  intros Hf Hb; unfold destroy, bind, gets.
  destruct (iframe (emb w)) as [n|] eqn:Ef; [|congruence].
  unfold bus_destroy, bind, modify, the_bus; simpl.
  destruct (eventBus (emb w)) as [b|]; [|congruence].
  simpl; repeat split; [rewrite Ef | ]; discriminate.
Qed.

Lemma created_after_initialize (cfg : VbrickEmbedConfig) :
  let w1 := fst (step (fresh_world cfg) (Host Initialize)) in
  iframe (emb w1) <> None /\ eventBus (emb w1) <> None.
Proof.
  cbv zeta; rewrite step_fst.
  destruct (initialize_first (fresh_world cfg) eq_refl) as (w' & p & Hw & _ & Hf & Hb).
  assert (K : keeps created_kept microtasks) by (eapply keeps_microtasks; kept_goals).
  simpl exec; unfold call, bind; rewrite Hw; simpl.
  destruct (K w') as [A B]; split; [apply A, Hf | apply B, Hb].
Qed.

(** Claim C10. On an embed whose [initialize()] has never been called,
    whatever else happened to it, [destroy()] throws: [this.iframe] is still
    [undefined], so [this.iframe.remove()] raises a TypeError. Once
    [initialize()] has run, [destroy()] can be called twice in a row without
    throwing. *)
Theorem destroy_requires_initialize (cfg : VbrickEmbedConfig) (acts : list action)
    (cfg' : VbrickEmbedConfig) (acts' : list action) :
  ~ In (Host Initialize) acts ->
  snd (destroy (run (fresh_world cfg) acts)) = Throw TypeError /\
  (let w1 := run (fresh_world cfg') (Host Initialize :: acts') in
   snd (destroy w1) = Ok tt /\ snd (destroy (fst (destroy w1))) = Ok tt).
Proof.
  intro Hi; split.
  - assert (H : iframe (emb (run (fresh_world cfg) acts)) = None).
    { apply (run_keeps no_iframe_kept acts); try reflexivity.
      - intros w H; exact H.
      - intros a b c H1 H2 H; apply H2, H1, H.
      - intros w a Ha; apply no_iframe_step; intros ->; exact (Hi Ha). }
    unfold destroy, bind, gets; rewrite H; reflexivity.
  - cbv zeta; simpl run.
    destruct (created_after_initialize cfg') as [Hf Hb].
    assert (K : created_kept (fst (step (fresh_world cfg') (Host Initialize)))
                  (run (fst (step (fresh_world cfg') (Host Initialize))) acts')).
    { apply run_keeps.
      - intro w; split; auto.
      - intros a b c [A1 B1] [A2 B2]; split; auto.
      - intros w a _; apply created_step. }
    destruct K as [A B].
    destruct (destroy_ok _ (A Hf) (B Hb)) as (D1 & D2 & D3).
    split; [exact D1|].
    destruct (destroy_ok _ D2 D3) as (E1 & _); exact E1.
Qed.

(** Claim C8. [initializeToken()] resolves with nothing when the
    configuration has no token, with [{accessToken: token.value}] for an
    access token, and rejects with ['Unsupported token type'] for any other
    token type (JWT, guest registration). In that last case the
    synchronous part of [initialize()] sends no message at all, the
    handshake promise rejects with that error, and the only message ever
    sent is the synthetic error of the [.catch] handler: no [authenticated]
    round trip is attempted. *)
Theorem initializeToken_resolution (cfg : VbrickEmbedConfig) (w : world) :
  config (emb w) = cfg ->
  match token cfg with
  | None => initializeToken w = (w, Ok (Fulfilled VUndef))
  | Some t =>
      match type t with
      | ACCESS_TOKEN =>
          initializeToken w = (w, Ok (Fulfilled (VObj [("accessToken", VStr (tvalue t))])))
      | _ =>
          initializeToken w = (w, Ok (Rejected (VStr "Unsupported token type"))) /\
          sent (log (fst (exec (Host Initialize) (fresh_world cfg)))) = [] /\
          (exists p, let w1 := run (fresh_world cfg) [Host Initialize] in
             init (emb w1) = Some p /\
             promise_state w1 p = Rejected (VStr "Unsupported token type") /\
             sent (log w1) = [("error", VObj [("msg", VStr "initializationFailed")])])
      end
  end.
Proof.
  intro Hc; unfold initializeToken; rewrite Hc.
  destruct cfg as [[[ty v iss]|] ts]; simpl; [destruct ty|]; try reflexivity.
  all: split; [reflexivity|].
  all: destruct ts as [[|s|s]|]; vm_compute;
    (split; [reflexivity | eexists; split; [reflexivity | split; reflexivity]]).
Qed.

(** An entry that caches webcast metadata. *)
Definition loads_info (en : entry) : bool :=
  String.eqb (en_event en) "webcastLoaded" &&
  match en_body en with OnWebcastLoaded => true | _ => false end.

Definition webcast_entry_ok (en : entry) : Prop :=
  en_event en = "webcastLoaded" ->
  en_body en = OnWebcastLoaded \/ exists l ev, en_body en = Deferred l ev.

Definition webcast_entry_okb (en : entry) : bool :=
  negb (String.eqb (en_event en) "webcastLoaded") ||
  match en_body en with OnWebcastLoaded | Deferred _ _ => true | _ => false end.

Lemma webcast_entries_ok (es : list entry) :
  forallb webcast_entry_okb es = true -> Forall webcast_entry_ok es.
Proof.
  intros H; apply Forall_forall; intros en Hin Ev.
  pose proof (proj1 (forallb_forall _ _) H en Hin) as E.
  unfold webcast_entry_okb in E; rewrite Ev in E; cbn [String.eqb negb orb] in E.
  destruct (en_body en); try discriminate; [left; reflexivity|].
  right; do 2 eexists; reflexivity.
Qed.

Lemma fst_bind_ret {A B} (m : M A) (b : B) (w : world) :
  fst (bind m (fun _ => ret b) w) = fst (m w).
Proof. unfold bind; destruct (m w) as [w' [a|e]]; reflexivity. Qed.

Lemma run_bodies_webcast (es : list entry) (v : value) (w : world) :
  v <> VUndef -> Forall webcast_entry_ok es ->
  snd (run_bodies es "webcastLoaded" v w) = Ok tt /\
  info (fst (run_bodies es "webcastLoaded" v w)) =
    if existsb loads_info es then omit_status v else info w.
Proof.
  intros Hv; revert w; induction es as [|en es IH]; intros w Hf; [split; reflexivity|].
  inversion Hf as [|? ? Hen Hes]; subst.
  simpl run_bodies; unfold bind.
  unfold loads_info at 1; simpl existsb.
  destruct (String.eqb (en_event en) "webcastLoaded") eqn:Ev.
  - apply String.eqb_eq in Ev; destruct (Hen Ev) as [Hb | (l & ev & Hb)]; rewrite Hb.
    + assert (E : run_body OnWebcastLoaded v w = (map_emb (with_info (omit_status v)) w, Ok tt))
        by (destruct v; [contradiction | reflexivity..]).
      rewrite E; cbn [fst snd].
      destruct (IH (map_emb (with_info (omit_status v)) w) Hes) as [R I].
      split; [exact R|]; rewrite I; destruct (existsb loads_info es); reflexivity.
    + simpl; unfold bind, setTimeout, fresh, modify, ret; simpl.
      match goal with |- context [run_bodies es _ v ?w'] =>
        destruct (IH w' Hes) as [R I] end.
      split; [exact R|]; rewrite I; reflexivity.
  - simpl; unfold ret; destruct (IH w Hes) as [R I]; split; [exact R | exact I].
Qed.

Lemma filter_lookup_other (fs : list (string * value)) (k : string) :
  k <> "status" ->
  lookup_field k (filter (fun kv => negb (String.eqb (fst kv) "status")) fs) = lookup_field k fs.
Proof.
  intro Hk; induction fs as [|[k' v'] fs IH]; [reflexivity|]; simpl.
  destruct (String.eqb k' "status") eqn:E; simpl.
  - apply String.eqb_eq in E; subst k'.
    destruct (String.eqb k "status") eqn:E2; [apply String.eqb_eq in E2; congruence | exact IH].
  - destruct (String.eqb k k'); [reflexivity | exact IH].
Qed.

Lemma filter_lookup_status (fs : list (string * value)) :
  lookup_field "status" (filter (fun kv => negb (String.eqb (fst kv) "status")) fs) = VUndef.
Proof.
  induction fs as [|[k' v'] fs IH]; [reflexivity|]; cbn [filter fst].
  destruct (String.eqb k' "status") eqn:E; cbn [negb]; [exact IH|].
  cbn [lookup_field].
  destruct (String.eqb "status" k') eqn:E2; [|exact IH].
  apply String.eqb_eq in E2; subst k'; rewrite String.eqb_refl in E; discriminate.
Qed.

(** Claim C6. When a [webcastLoaded] event with an object payload is
    delivered to a live bus on which the internal [webcastLoaded] listener
    is registered (next to any number of listeners added with [on()]),
    [info] afterwards is the payload without its [status] field: it has no
    [status], and every other field reads as in the payload. *)
Theorem webcastLoaded_info_without_status (w : world) (b : EventBus) (fs : list (string * value)) :
  eventBus (emb w) = Some b -> destroyed b = false ->
  Forall webcast_entry_ok (listeners b) ->
  existsb loads_info (listeners b) = true ->
  let w' := fst (step w (Message "webcastLoaded" (VObj fs))) in
  info w' = VObj (filter (fun kv => negb (String.eqb (fst kv) "status")) fs) /\
  get (info w') "status" = VUndef /\
  (forall k, k <> "status" -> get (info w') k = get (VObj fs) k).
Proof.
  intros Hb Hd Hf He; cbv zeta.
  assert (Hi : info (fst (step w (Message "webcastLoaded" (VObj fs)))) =
               VObj (filter (fun kv => negb (String.eqb (fst kv) "status")) fs)).
  { rewrite step_fst.
    assert (K : keeps (same info) microtasks) by (eapply keeps_microtasks; frame_goals).
    unfold same in K; rewrite K.
    simpl exec; rewrite fst_bind_ret; unfold receive; rewrite Hb, Hd.
    destruct (run_bodies_webcast (listeners b) (VObj fs) w ltac:(discriminate) Hf) as [_ I].
    rewrite I, He; reflexivity. }
  rewrite Hi; split; [reflexivity | split].
  - apply filter_lookup_status.
  - intros k Hk; apply filter_lookup_other, Hk.
Qed.

(** Claim C7. When the handshake fails (the token resolution rejected, or
    the [load]-or-[error] wait rejected because of an [error] event or its
    timeout), the handshake's reaction on a live bus sets [playerStatus] to
    [Error], publishes the synthetic [error] event, emits the local error,
    and only then rejects the [initialize()] promise with that same
    error. *)
Theorem handshake_failure_effects (w : world) (h : handshake) (b : EventBus) (e : value) :
  hs_done h = false ->
  eventBus (emb w) = Some b -> destroyed b = false ->
  (hs_token h = Rejected e \/
   ((exists tk, hs_token h = Fulfilled tk) /\ promise_state w (hs_load h) = Rejected e)) ->
  let w' := fst (handshake_reaction h w) in
  promise_state w' (hs_promise h) = Rejected e /\
  playerStatus w' = PlayerStatus.Error /\
  log w' = log w ++ [Sent "error" (VObj [("msg", VStr "initializationFailed")]);
                     LocalError "Error loading embed content" e].
Proof.
  intros Hd Hb Hn Hf; cbv zeta.
  assert (Ha : all_settled w h = Some (Rejected e)).
  { unfold all_settled; destruct Hf as [-> | ((tk & ->) & ->)]; reflexivity. }
  unfold handshake_reaction; rewrite Hd, Ha.
  unfold init_catch, bus_publishError, bus_publish, bus_emitLocalError, the_bus, mark_done.
  unfold try_catch, bind, throw, modify, ret, set_promise; simpl.
  repeat (simpl; first [rewrite Hb | rewrite Hn]); simpl.
  unfold promise_state; simpl; rewrite Nat.eqb_refl.
  split; [reflexivity | split; [reflexivity|]].
  rewrite <- app_assoc; reflexivity.
Qed.

(** ** Runs in which only time passes *)

(** An action in which no message arrives and no host call is made. *)
Definition time_only (a : action) : bool :=
  match a with Advance _ | FireTimer _ => true | _ => false end.

Section TimeOnly.

Variable wc : world.
Hypothesis adv_step : forall d d', fst (step (advance d wc) (Advance d')) = advance (d + d') wc.
Hypothesis fire_step : forall d id, fst (step (advance d wc) (FireTimer id)) = advance d wc.

Lemma time_only_run (acts : list action) :
  forallb time_only acts = true -> forall d, exists d', run (advance d wc) acts = advance d' wc.
Proof.
  induction acts as [|[c|ev v|d0|id] acts IH]; cbn [run forallb time_only andb];
    try discriminate; intros H d.
  - exists d; reflexivity.
  - rewrite adv_step; apply IH; exact H.
  - rewrite fire_step; apply IH; exact H.
Qed.

End TimeOnly.

Lemma run_cons (w : world) (a : action) (acts : list action) :
  run w (a :: acts) = run (fst (step w a)) acts.
Proof. reflexivity. Qed.

(** A configuration that gives neither a token nor [timeoutSeconds]. *)
Definition cfg_no_timeout : VbrickEmbedConfig := {| token := None; timeoutSeconds := None |}.

(** The world right after [initialize()] on that configuration. *)
Definition w_initialized : world := fst (step (fresh_world cfg_no_timeout) (Host Initialize)).

Lemma w_initialized_advance d d' :
  fst (step (advance d w_initialized) (Advance d')) = advance (d + d') w_initialized.
Proof. vm_compute; reflexivity. Qed.

Lemma w_initialized_fire d id :
  fst (step (advance d w_initialized) (FireTimer id)) = advance d w_initialized.
Proof. vm_compute; reflexivity. Qed.

(** With [timeoutSeconds = 30] the same handshake does time out at 30 s. *)
Lemma initialize_with_timeoutSeconds_rejects :
  let w := run (fresh_world {| token := None; timeoutSeconds := Some 30%Z |})
               [Host Initialize; Advance 29999; FireTimer 8] in
  promise_state w 9 = Pending /\
  (let w' := run w [Advance 1; FireTimer 8] in
   promise_state w' 9 = Rejected (VStr "timeout") /\ playerStatus w' = PlayerStatus.Error).
Proof. vm_compute; auto. Qed.

(** Claim C3. When the configuration omits [timeoutSeconds], the handshake
    gets no timeout at all, not one of 30 seconds: [undefined * 1000] is
    [NaN], so [timeout] is [undefined] and no timer is scheduled. If neither
    [load] nor [error] arrives, [initialize()] stays pending however much
    time passes. *)
Theorem initialize_without_timeoutSeconds_never_times_out (acts : list action) :
  forallb time_only acts = true ->
  let w := run (fresh_world cfg_no_timeout) (Host Initialize :: acts) in
  init (emb w) = Some 8 /\ promise_state w 8 = Pending /\ timers w = [].
Proof.
  intros H; cbv zeta; rewrite run_cons.
  assert (E : fst (step (fresh_world cfg_no_timeout) (Host Initialize)) = advance 0 w_initialized)
    by (vm_compute; reflexivity).
  rewrite E.
  destruct (time_only_run w_initialized w_initialized_advance w_initialized_fire acts H 0)
    as [d ->].
  vm_compute; auto.
Qed.

(** The world after [initialize()] and the iframe's [load] message, on
    [cfg_no_timeout]. *)
Definition w_loaded : world :=
  run (fresh_world cfg_no_timeout) [Host Initialize; Message "load" VUndef].

(** The token passed to [updateToken]. *)
Definition token_t2 : VbrickSDKToken := {| type := ACCESS_TOKEN; tvalue := "t2"; issuer := "rev" |}.

Definition w_updating : world := fst (step w_loaded (Host (UpdateToken token_t2))).

Lemma w_updating_advance d d' :
  fst (step (advance d w_updating) (Advance d')) = advance (d + d') w_updating.
Proof. vm_compute; reflexivity. Qed.

Lemma w_updating_fire d id :
  fst (step (advance d w_updating) (FireTimer id)) = advance d w_updating.
Proof. vm_compute; reflexivity. Qed.

(** Claim C4. [updateToken(T)] stores [T] before it awaits the remote
    confirmation, and an [error] reply rejects the call with that error
    while the token stays [T]. But the confirmation is awaited with no
    timeout: when no reply comes, the call never rejects and stays pending
    however much time passes, with the token already [T]. *)
Theorem updateToken_confirmation_never_times_out (acts : list action) :
  forallb time_only acts = true ->
  snd (step w_loaded (Host (UpdateToken token_t2))) = Ok (RPromise 12) /\
  let w := run w_loaded (Host (UpdateToken token_t2) :: acts) in
  token (config (emb w)) = Some token_t2 /\ promise_state w 12 = Pending /\ timers w = [] /\
  (forall e, let w' := fst (step w (Message "error" e)) in
   promise_state w' 12 = Rejected e /\ token (config (emb w')) = Some token_t2).
Proof.
  intros H; split; [vm_compute; reflexivity|]; cbv zeta; rewrite run_cons.
  assert (E : fst (step w_loaded (Host (UpdateToken token_t2))) = advance 0 w_updating)
    by (vm_compute; reflexivity).
  rewrite E.
  destruct (time_only_run w_updating w_updating_advance w_updating_fire acts H 0) as [d ->].
  vm_compute; auto.
Qed.

(** ** [on] and [off] *)

(** The listeners of the embed's bus. *)
Definition bus_listeners (w : world) : list entry :=
  match eventBus (emb w) with Some b => listeners b | None => [] end.

(** No listener on the bus is the host's function [l] itself. *)
Definition no_host_ref (l : nat) (es : list entry) : bool :=
  forallb (fun en => negb (fnref_eqb (en_ref en) (HostFn l))) es.

Lemma drop_entries_no_host_ref (ev : string) (l : nat) (es : list entry) :
  no_host_ref l es = true -> drop_entries ev (HostFn l) es = es.
Proof.
  unfold no_host_ref, drop_entries; induction es as [|en es IH]; cbn [forallb filter]; [reflexivity|].
  intros H; apply andb_prop in H as [H1 H2].
  apply negb_true_iff in H1; rewrite H1, andb_false_r; cbn [negb]; rewrite IH by exact H2.
  reflexivity.
Qed.

(** Claim C2. [off(event, listener)] does not remove what
    [on(event, listener)] registered: [on] puts a fresh wrapper closure on
    the bus, and [off] looks for the host's [listener] itself, which the
    bus does not hold. So [off] right after [on] leaves the embed
    unchanged, and the wrapper that calls [listener] stays registered. *)
Theorem off_does_not_remove_on_listener (w : world) (b : EventBus) (ev : string) (l : nat) :
  eventBus (emb w) = Some b -> no_host_ref l (listeners b) = true ->
  let w1 := fst (on ev l w) in
  fst (off ev l w1) = w1 /\
  exists r, In {| en_event := ev; en_ref := r; en_body := Deferred l ev |} (bus_listeners w1).
Proof.
  intros Hb Hn; cbv zeta.
  unfold on, off, bus_on, bus_off, the_bus, put_bus, fresh, bind, ret, modify; rewrite Hb.
  cbn [fst snd emb map_emb with_bus eventBus bump listeners destroyed].
  split.
  - rewrite drop_entries_no_host_ref.
    + destruct w as [[] ? ? ? ? ? ? ? ? ?]; reflexivity.
    + unfold no_host_ref in *; rewrite forallb_app, Hn; reflexivity.
  - eexists; unfold bus_listeners; cbn [emb eventBus listeners map_emb with_bus bump].
    apply in_or_app; right; left; reflexivity.
Qed.

(** The trace of the example: a host listener 7 is added with [on] and
    removed with [off], then a [playerStatusChanged] message arrives. *)
Definition on_off_trace : list action :=
  [Host Initialize; Message "load" VUndef;
   Host (On "playerStatusChanged" 7); Host (Off "playerStatusChanged" 7);
   Message "playerStatusChanged" (VObj [("status", PlayerStatus.Playing)]);
   FireTimer 13].

Lemma on_off_trace_calls_listener :
  calls (log (run (fresh_world cfg_no_timeout) on_off_trace)) =
  [Called 7 "playerStatusChanged" (VObj [("status", PlayerStatus.Playing)]) PlayerStatus.Playing].
Proof. vm_compute; reflexivity. Qed.

(** ** Dispatch to the internal listeners *)

(** The internal listener of [initializeEmbed()] for the event [ev], as its
    effect on the embed's fields. *)
Definition handler_of (ev : string) (e : value) : VbrickEmbed -> VbrickEmbed :=
  if String.eqb ev "videoLoaded" then fun m => with_status PlayerStatus.Paused (with_info e m)
  else if String.eqb ev "webcastLoaded" then with_info (omit_status e)
  else if String.eqb ev "playerStatusChanged" then with_status (get e "status")
  else if String.eqb ev "subtitlesChanged" then with_subtitles e
  else fun m => m.

(** [bd] is the internal listener that [initializeEmbed()] registers for [ev]. *)
Definition internal_for (ev : string) (bd : body) : bool :=
  match bd with
  | OnVideoLoaded => String.eqb ev "videoLoaded"
  | OnWebcastLoaded => String.eqb ev "webcastLoaded"
  | OnPlayerStatusChanged => String.eqb ev "playerStatusChanged"
  | OnSubtitlesChanged => String.eqb ev "subtitlesChanged"
  | _ => false
  end.

Definition is_deferred (bd : body) : bool :=
  match bd with Deferred _ _ => true | _ => false end.

(** Every listener for [ev] is its internal listener or an [on()] wrapper. *)
Definition plain_listeners (ev : string) (es : list entry) : bool :=
  forallb (fun en => negb (String.eqb (en_event en) ev) ||
                     internal_for ev (en_body en) || is_deferred (en_body en)) es.

Definition has_internal (ev : string) (es : list entry) : bool :=
  existsb (fun en => String.eqb (en_event en) ev && internal_for ev (en_body en)) es.

Lemma handler_of_idem (ev : string) (e : value) (m : VbrickEmbed) :
  handler_of ev e (handler_of ev e m) = handler_of ev e m.
Proof.
  unfold handler_of.
  destruct (String.eqb ev "videoLoaded"); [reflexivity|].
  destruct (String.eqb ev "webcastLoaded"); [reflexivity|].
  destruct (String.eqb ev "playerStatusChanged"); [reflexivity|].
  destruct (String.eqb ev "subtitlesChanged"); reflexivity.
Qed.

(** The internal listeners for [playerStatusChanged] and [webcastLoaded]
    read the payload, and throw a TypeError on [undefined]; the other two
    only store it. *)
Definition payload_readable (ev : string) (e : value) : bool :=
  match e with
  | VUndef => negb (String.eqb ev "playerStatusChanged" || String.eqb ev "webcastLoaded")
  | _ => true
  end.

Lemma run_body_internal (ev : string) (bd : body) (e : value) (w : world) :
  internal_for ev bd = true -> payload_readable ev e = true ->
  fst (run_body bd e w) = map_emb (handler_of ev e) w /\ snd (run_body bd e w) = Ok tt.
Proof.
  destruct bd; cbn [internal_for]; try discriminate; intros H Hr; apply String.eqb_eq in H; subst ev;
    destruct e; try (cbn in Hr; discriminate Hr); split; reflexivity.
Qed.

Lemma run_bodies_emb (ev : string) (e : value) (es : list entry) (w : world) :
  payload_readable ev e = true -> plain_listeners ev es = true ->
  emb (fst (run_bodies es ev e w)) =
    (if has_internal ev es then handler_of ev e (emb w) else emb w) /\
  log (fst (run_bodies es ev e w)) = log w.
Proof.
  intros Hr; revert w; induction es as [|en es IH]; intros w H; [split; reflexivity|].
  unfold plain_listeners in H; cbn [forallb] in H; apply andb_prop in H as [H1 H2].
  cbn [run_bodies has_internal existsb]; unfold bind.
  destruct (String.eqb (en_event en) ev) eqn:Ev; cbn [andb orb negb] in *.
  - destruct (internal_for ev (en_body en)) eqn:Hi; cbn [orb] in *.
    + destruct (run_body_internal ev (en_body en) e w Hi Hr) as [F S].
      destruct (run_body (en_body en) e w) as [w' r]; cbn [fst snd] in F, S; subst w' r.
      destruct (IH (map_emb (handler_of ev e) w) H2) as [E L].
      split; [|exact L].
      rewrite E; cbn [emb map_emb]; fold (has_internal ev es).
      destruct (has_internal ev es); [apply handler_of_idem | reflexivity].
    + destruct (en_body en) eqn:Hb; try discriminate.
      cbn [run_body]; unfold setTimeout, bind, fresh, modify, ret; cbn [fst snd].
      match goal with |- context [run_bodies es ev e ?w'] =>
        destruct (IH w' H2) as [E L] end.
      fold (has_internal ev es); split; [exact E | exact L].
  - unfold ret; cbn [fst snd]; fold (has_internal ev es); exact (IH w H2).
Qed.

Lemma exec_message_emb (w : world) (b : EventBus) (ev : string) (e : value) :
  eventBus (emb w) = Some b -> destroyed b = false -> plain_listeners ev (listeners b) = true ->
  payload_readable ev e = true ->
  emb (fst (exec (Message ev e) w)) =
    (if has_internal ev (listeners b) then handler_of ev e (emb w) else emb w) /\
  log (fst (exec (Message ev e) w)) = log w.
Proof.
  intros Hb Hd Hp Hr; cbn [exec]; rewrite fst_bind_ret; unfold receive; rewrite Hb, Hd.
  exact (run_bodies_emb ev e (listeners b) w Hr Hp).
Qed.

(** ** Internally consumed events and the deferred host listeners *)

(** [bd] is a wrapper added with [on(ev, ...)]. *)
Definition is_wrapper (ev : string) (bd : body) : bool :=
  match bd with Deferred _ ev' => String.eqb ev' ev | _ => false end.

(** Every listener for [ev] is the internal one of [initializeEmbed()] or a
    wrapper added with [on(ev, ...)]. *)
Definition own_listeners (ev : string) (es : list entry) : bool :=
  forallb (fun en => negb (String.eqb (en_event en) ev) ||
                     internal_for ev (en_body en) || is_wrapper ev (en_body en)) es.

Definition wrapper_entry (ev : string) (en : entry) : bool :=
  String.eqb (en_event en) ev && is_wrapper ev (en_body en).

(** A timer scheduled by a wrapper for the occurrence [v] of [ev]. *)
Definition deferred_call (ev : string) (k k' : nat) (now0 : N) (v : value) (t : timer) : Prop :=
  (k <= t_id t < k')%nat /\ t_due t = now0 /\
  exists l, t_task t = CallListener l ev v.

Lemma run_bodies_dispatch (ev : string) (es : list entry) (v : value) (w : world) :
  payload_readable ev v = true -> own_listeners ev es = true ->
  let w1 := fst (run_bodies es ev v w) in
  emb w1 = (if has_internal ev es then handler_of ev v (emb w) else emb w) /\
  log w1 = log w /\ now w1 = now w /\ (next w <= next w1)%nat /\
  exists new, timers w1 = timers w ++ new /\
    length new = length (filter (wrapper_entry ev) es) /\
    Forall (deferred_call ev (next w) (next w1) (now w) v) new /\ NoDup (map t_id new).
Proof.
  intros Hr; revert w; induction es as [|en es IH]; intros w Ho; cbv zeta.
  - cbn [run_bodies ret fst has_internal existsb].
    split; [reflexivity | split; [reflexivity | split; [reflexivity | split; [lia|]]]].
    exists []; rewrite app_nil_r; repeat split; constructor.
  - unfold own_listeners in Ho; cbn [forallb] in Ho; apply andb_prop in Ho as [H1 H2].
    cbn [run_bodies has_internal existsb filter]; unfold bind.
    fold (has_internal ev es).
    unfold wrapper_entry at 1.
    destruct (String.eqb (en_event en) ev) eqn:Ev; cbn [andb orb negb] in *.
    + destruct (internal_for ev (en_body en)) eqn:Hi; cbn [orb] in *.
      * destruct (run_body_internal ev (en_body en) v w Hi Hr) as [F S].
        destruct (run_body (en_body en) v w) as [w' r]; cbn [fst snd] in F, S; subst w' r.
        destruct (IH (map_emb (handler_of ev v) w) H2) as (E & L & N & X & new & T & Ln & F & D).
        assert (Hw : is_wrapper ev (en_body en) = false)
          by (destruct (en_body en); try discriminate Hi; reflexivity).
        rewrite Hw.
        cbn [log now next timers emb map_emb] in L, N, X, T, F.
        split.
        { rewrite E; cbn [emb map_emb].
          destruct (has_internal ev es); [apply handler_of_idem | reflexivity]. }
        split; [exact L | split; [exact N | split; [exact X|]]].
        exists new; split; [exact T | split; [exact Ln | split; [exact F | exact D]]].
      * destruct (en_body en) as [| | | |l ev'| |] eqn:Hb; try discriminate H1.
        cbn [is_wrapper] in H1 |- *; rewrite H1.
        apply String.eqb_eq in H1; subst ev'.
        cbn [run_body]; unfold setTimeout, bind, fresh, modify, ret; cbn [fst snd].
        match goal with |- context [run_bodies es _ v ?w'] =>
          destruct (IH w' H2) as (E & L & N & X & new & T & Ln & F & D) end.
        cbn [log now next timers bump map_timers emb length] in *.
        split; [exact E | split; [exact L | split; [exact N | split; [lia|]]]].
        exists ({| t_id := next w; t_due := (now w + Z.to_N 0)%N;
                   t_task := CallListener l ev v |} :: new).
        split; [rewrite T, <- app_assoc; reflexivity|].
        split; [cbn [length]; rewrite Ln; reflexivity|].
        split.
        { constructor.
          - split; [cbn [t_id]; lia | split; [cbn [t_due Z.to_N]; apply N.add_0_r | eexists; reflexivity]].
          - eapply Forall_impl; [|exact F].
            intros t (Hk & Hd & Ht); split; [lia | split; [exact Hd | exact Ht]]. }
        cbn [map t_id]; constructor; [|exact D].
        intros Hin; apply in_map_iff in Hin as (t & Ht & Hin).
        rewrite Forall_forall in F; destruct (F t Hin) as (Hk & _); cbn [next bump] in Hk; lia.
    + unfold ret; cbn [fst].
      exact (IH w H2).
Qed.

Lemma find_timer_new (old new : list timer) (k : nat) (t : timer) :
  Forall (fun t' => (t_id t' < k)%nat) old -> Forall (fun t' => (k <= t_id t')%nat) new ->
  NoDup (map t_id new) -> In t new -> find_timer (t_id t) (old ++ new) = Some t.
Proof.
  intros Ho Hn D Hin.
  assert (Hk : (k <= t_id t)%nat) by (rewrite Forall_forall in Hn; exact (Hn t Hin)).
  induction old as [|t' old IH]; cbn [app find_timer].
  - clear Hn; induction new as [|t'' new IHn]; [destruct Hin|]; cbn [find_timer].
    inversion D as [|? ? Hnot D']; subst.
    destruct Hin as [<- | Hin]; [rewrite Nat.eqb_refl; reflexivity|].
    destruct (Nat.eqb (t_id t'') (t_id t)) eqn:E.
    + apply Nat.eqb_eq in E; exfalso; apply Hnot; rewrite E; apply in_map, Hin.
    + apply IHn; assumption.
  - inversion Ho as [|? ? Ht' Ho']; subst.
    destruct (Nat.eqb (t_id t') (t_id t)) eqn:E; [apply Nat.eqb_eq in E; lia | apply IH, Ho'].
Qed.

(** Claim C5, as the code has it. When an occurrence [v] of an event [ev]
    that [initializeEmbed()] consumes ([videoLoaded], [webcastLoaded],
    [playerStatusChanged], [subtitlesChanged]) is dispatched to a live bus
    holding its internal listener (and any number of [on()] wrappers), and
    the internal listener can read [v] ([v] is not [undefined] for
    [playerStatusChanged] and [webcastLoaded], whose listeners throw on
    it), the internal listener has applied its update to the embed once
    the dispatch returns, and no host listener has been called: each
    wrapper has scheduled one timer for its host listener instead. A host
    listener called by its timer, if that timer runs next, observes the
    updated embed. *)
Theorem status_applied_before_host_listeners (w : world) (b : EventBus) (ev : string) (v : value) :
  payload_readable ev v = true ->
  eventBus (emb w) = Some b -> destroyed b = false ->
  own_listeners ev (listeners b) = true ->
  has_internal ev (listeners b) = true ->
  Forall (fun t => (t_id t < next w)%nat) (timers w) ->
  let w1 := fst (exec (Message ev v) w) in
  emb w1 = handler_of ev v (emb w) /\ log w1 = log w /\
  exists new, timers w1 = timers w ++ new /\
    length new = length (filter (wrapper_entry ev) (listeners b)) /\
    Forall (fun t => exists l, t_task t = CallListener l ev v /\
              emb (fst (fire (t_id t) w1)) = emb w1 /\
              log (fst (fire (t_id t) w1)) = log w1 ++ [Called l ev v (playerStatus w1)]) new.
Proof.
  intros Hr Hb Hd Ho He Hold; cbv zeta.
  cbn [exec]; rewrite fst_bind_ret; unfold receive; rewrite Hb, Hd.
  destruct (run_bodies_dispatch ev (listeners b) v w Hr Ho) as (E & L & N & X & new & T & Ln & F & D).
  rewrite He in E.
  set (w1 := fst (run_bodies (listeners b) ev v w)) in *.
  split; [exact E | split; [exact L|]].
  exists new; split; [exact T | split; [exact Ln|]].
  rewrite Forall_forall; intros t Hin.
  destruct (proj1 (Forall_forall _ _) F t Hin) as (Hk & Hdue & l & Htask).
  exists l; split; [exact Htask|].
  unfold fire; rewrite T.
  rewrite (find_timer_new (timers w) new (next w) t Hold).
  - rewrite Hdue, N, N.leb_refl, Htask.
    unfold clearTimeout, run_task, bind, modify, gets, ret; cbn [fst].
    split; reflexivity.
  - eapply Forall_impl; [|exact F]; intros t' (Hk' & _); lia.
  - exact D.
  - exact Hin.
Qed.

(** The example: the host listener 7 is added with [on]; a [Playing]
    occurrence is followed by a [Paused] one before the first wrapper's
    timer runs. The listener, called with the [Playing] payload, reads
    [playerStatus] as [Paused]. *)
Definition two_status_trace : list action :=
  [Host Initialize; Message "load" VUndef;
   Host (On "playerStatusChanged" 7);
   Message "playerStatusChanged" (VObj [("status", PlayerStatus.Playing)]);
   Message "playerStatusChanged" (VObj [("status", PlayerStatus.Paused)]);
   FireTimer 13].

(** Claim C5, counterexample. *)
Lemma listener_observes_later_status :
  calls (log (run (fresh_world cfg_no_timeout) two_status_trace)) =
  [Called 7 "playerStatusChanged" (VObj [("status", PlayerStatus.Playing)]) PlayerStatus.Paused] /\
  PlayerStatus.Paused <> PlayerStatus.Playing.
Proof. split; [vm_compute; reflexivity | discriminate]. Qed.

(** * Instances of the theorems on concrete embeds *)

Definition cfg_jwt : VbrickEmbedConfig :=
  {| token := Some {| type := JWT; tvalue := "j"; issuer := "rev" |}; timeoutSeconds := None |}.

(** The bus of a world, when it has one that is live. *)
Definition live_bus (w : world) : EventBus := {| listeners := bus_listeners w; destroyed := false |}.

Definition w_webcast : world :=
  run (fresh_world cfg_no_timeout) [Host Initialize; Message "load" VUndef; Host (On "webcastLoaded" 3)].

Definition w_status : world :=
  run (fresh_world cfg_no_timeout) [Host Initialize; Message "load" VUndef; Host (On "playerStatusChanged" 7)].

Definition w_jwt : world := fst (exec (Host Initialize) (fresh_world cfg_jwt)).

Definition hs_jwt : handshake :=
  {| hs_promise := 8; hs_token := Rejected (VStr "Unsupported token type"); hs_load := 5;
     hs_timeout := None; hs_done := false |}.

Lemma initialize_memoized_witness :
  ~ In (Host Destroy) [Message "load" VUndef; Host Play] /\
  exists p,
    snd (step (fresh_world cfg_no_timeout) (Host Initialize)) = Ok (RPromise p) /\
    (let w2 := run (fst (step (fresh_world cfg_no_timeout) (Host Initialize)))
                   [Message "load" VUndef; Host Play] in
     initialize w2 = (w2, Ok p) /\ snd (step w2 (Host Initialize)) = Ok (RPromise p)).
Proof.
  split; [simpl; intuition discriminate|].
  apply (initialize_memoized (fresh_world cfg_no_timeout) [Message "load" VUndef; Host Play]).
  simpl; intuition discriminate.
Defined.

Lemma off_does_not_remove_on_listener_witness :
  eventBus (emb w_initialized) = Some (live_bus w_initialized) /\
  no_host_ref 7 (listeners (live_bus w_initialized)) = true /\
  (let w1 := fst (on "playerStatusChanged" 7 w_initialized) in
   fst (off "playerStatusChanged" 7 w1) = w1 /\
   exists r, In {| en_event := "playerStatusChanged"; en_ref := r;
                   en_body := Deferred 7 "playerStatusChanged" |} (bus_listeners w1)).
Proof.
  assert (Hb : eventBus (emb w_initialized) = Some (live_bus w_initialized))
    by (vm_compute; reflexivity).
  assert (Hn : no_host_ref 7 (listeners (live_bus w_initialized)) = true)
    by (vm_compute; reflexivity).
  split; [exact Hb | split; [exact Hn|]].
  exact (off_does_not_remove_on_listener w_initialized (live_bus w_initialized)
           "playerStatusChanged" 7 Hb Hn).
Defined.

Lemma initialize_without_timeoutSeconds_never_times_out_witness :
  forallb time_only [Advance 30000; FireTimer 8; Advance 600000] = true /\
  (let w := run (fresh_world cfg_no_timeout)
                [Host Initialize; Advance 30000; FireTimer 8; Advance 600000] in
   init (emb w) = Some 8 /\ promise_state w 8 = Pending /\ timers w = []).
Proof.
  split; [reflexivity|].
  apply (initialize_without_timeoutSeconds_never_times_out [Advance 30000; FireTimer 8; Advance 600000]).
  reflexivity.
Defined.

Lemma updateToken_confirmation_never_times_out_witness :
  forallb time_only [Advance 30000; FireTimer 0; Advance 600000] = true /\
  snd (step w_loaded (Host (UpdateToken token_t2))) = Ok (RPromise 12) /\
  (let w := run w_loaded [Host (UpdateToken token_t2); Advance 30000; FireTimer 0; Advance 600000] in
   token (config (emb w)) = Some token_t2 /\ promise_state w 12 = Pending /\ timers w = [] /\
   (forall e, let w' := fst (step w (Message "error" e)) in
    promise_state w' 12 = Rejected e /\ token (config (emb w')) = Some token_t2)).
Proof.
  split; [reflexivity|].
  apply (updateToken_confirmation_never_times_out [Advance 30000; FireTimer 0; Advance 600000]).
  reflexivity.
Defined.

Lemma status_applied_before_host_listeners_witness :
  let v := VObj [("status", PlayerStatus.Playing)] in
  payload_readable "playerStatusChanged" v = true /\
  eventBus (emb w_status) = Some (live_bus w_status) /\
  own_listeners "playerStatusChanged" (listeners (live_bus w_status)) = true /\
  has_internal "playerStatusChanged" (listeners (live_bus w_status)) = true /\
  Forall (fun t => (t_id t < next w_status)%nat) (timers w_status) /\
  (let w1 := fst (exec (Message "playerStatusChanged" v) w_status) in
   emb w1 = handler_of "playerStatusChanged" v (emb w_status) /\ log w1 = log w_status /\
   exists new, timers w1 = timers w_status ++ new /\
     length new = length (filter (wrapper_entry "playerStatusChanged") (listeners (live_bus w_status))) /\
     Forall (fun t => exists l, t_task t = CallListener l "playerStatusChanged" v /\
               emb (fst (fire (t_id t) w1)) = emb w1 /\
               log (fst (fire (t_id t) w1)) =
                 log w1 ++ [Called l "playerStatusChanged" v (playerStatus w1)]) new).
Proof.
  cbv zeta.
  assert (Hr : payload_readable "playerStatusChanged" (VObj [("status", PlayerStatus.Playing)]) = true)
    by reflexivity.
  assert (Hb : eventBus (emb w_status) = Some (live_bus w_status)) by (vm_compute; reflexivity).
  assert (Ho : own_listeners "playerStatusChanged" (listeners (live_bus w_status)) = true)
    by (vm_compute; reflexivity).
  assert (He : has_internal "playerStatusChanged" (listeners (live_bus w_status)) = true)
    by (vm_compute; reflexivity).
  assert (Ht : Forall (fun t => (t_id t < next w_status)%nat) (timers w_status))
    by (vm_compute; constructor).
  split; [exact Hr | split; [exact Hb | split; [exact Ho | split; [exact He | split; [exact Ht|]]]]].
  exact (status_applied_before_host_listeners w_status (live_bus w_status) "playerStatusChanged"
           (VObj [("status", PlayerStatus.Playing)]) Hr Hb eq_refl Ho He Ht).
Defined.

Lemma webcastLoaded_info_without_status_witness :
  let fs := [("status", VStr "InProgress"); ("title", VStr "X")] in
  eventBus (emb w_webcast) = Some (live_bus w_webcast) /\
  Forall webcast_entry_ok (listeners (live_bus w_webcast)) /\
  existsb loads_info (listeners (live_bus w_webcast)) = true /\
  (let w' := fst (step w_webcast (Message "webcastLoaded" (VObj fs))) in
   info w' = VObj (filter (fun kv => negb (String.eqb (fst kv) "status")) fs) /\
   get (info w') "status" = VUndef /\
   (forall k, k <> "status" -> get (info w') k = get (VObj fs) k)).
Proof.
  cbv zeta.
  assert (Hb : eventBus (emb w_webcast) = Some (live_bus w_webcast)) by (vm_compute; reflexivity).
  assert (Hf : Forall webcast_entry_ok (listeners (live_bus w_webcast)))
    by (apply webcast_entries_ok; vm_compute; reflexivity).
  assert (He : existsb loads_info (listeners (live_bus w_webcast)) = true)
    by (vm_compute; reflexivity).
  split; [exact Hb | split; [exact Hf | split; [exact He|]]].
  exact (webcastLoaded_info_without_status w_webcast (live_bus w_webcast)
           [("status", VStr "InProgress"); ("title", VStr "X")] Hb eq_refl Hf He).
Defined.

Lemma handshake_failure_effects_witness :
  let e := VStr "Unsupported token type" in
  hs_done hs_jwt = false /\
  eventBus (emb w_jwt) = Some (live_bus w_jwt) /\
  hs_token hs_jwt = Rejected e /\
  handshakes w_jwt = [hs_jwt] /\
  (let w' := fst (handshake_reaction hs_jwt w_jwt) in
   promise_state w' (hs_promise hs_jwt) = Rejected e /\
   playerStatus w' = PlayerStatus.Error /\
   log w' = log w_jwt ++ [Sent "error" (VObj [("msg", VStr "initializationFailed")]);
                          LocalError "Error loading embed content" e]).
Proof.
  cbv zeta.
  assert (Hb : eventBus (emb w_jwt) = Some (live_bus w_jwt)) by (vm_compute; reflexivity).
  split; [reflexivity | split; [exact Hb | split; [reflexivity | split; [vm_compute; reflexivity|]]]].
  exact (handshake_failure_effects w_jwt hs_jwt (live_bus w_jwt) (VStr "Unsupported token type")
           eq_refl Hb eq_refl (or_introl eq_refl)).
Defined.

Lemma initializeToken_resolution_witness :
  config (emb (fresh_world cfg_jwt)) = cfg_jwt /\
  initializeToken (fresh_world cfg_jwt) =
    (fresh_world cfg_jwt, Ok (Rejected (VStr "Unsupported token type"))) /\
  sent (log (fst (exec (Host Initialize) (fresh_world cfg_jwt)))) = [] /\
  (exists p, let w1 := run (fresh_world cfg_jwt) [Host Initialize] in
     init (emb w1) = Some p /\
     promise_state w1 p = Rejected (VStr "Unsupported token type") /\
     sent (log w1) = [("error", VObj [("msg", VStr "initializationFailed")])]).
Proof.
  split; [reflexivity|].
  exact (initializeToken_resolution cfg_jwt (fresh_world cfg_jwt) eq_refl).
Defined.

Lemma destroy_requires_initialize_witness :
  ~ In (Host Initialize) [Host Play; Message "load" VUndef] /\
  snd (destroy (run (fresh_world cfg_no_timeout) [Host Play; Message "load" VUndef])) = Throw TypeError /\
  (let w1 := run (fresh_world cfg_no_timeout) [Host Initialize; Message "load" VUndef] in
   snd (destroy w1) = Ok tt /\ snd (destroy (fst (destroy w1))) = Ok tt).
Proof.
  assert (Hi : ~ In (Host Initialize) [Host Play; Message "load" VUndef])
    by (simpl; intuition discriminate).
  split; [exact Hi|].
  exact (destroy_requires_initialize cfg_no_timeout [Host Play; Message "load" VUndef]
           cfg_no_timeout [Message "load" VUndef] Hi).
Defined.

(** * Further properties of [VbrickEmbed] *)

(** [get isLive(): boolean { return this.info?.isLive; }] *)
Definition isLive (w : world) : value := get (info w) "isLive".

(** A [videoLoaded] message delivered to a live bus holding the internal
    listener caches the payload as [info], sets [playerStatus] to [Paused],
    and leaves every other field of the embed as it was; no host listener
    runs during the dispatch. *)
Theorem videoLoaded_sets_info_and_paused (w : world) (b : EventBus) (v : value) :
  eventBus (emb w) = Some b -> destroyed b = false ->
  plain_listeners "videoLoaded" (listeners b) = true ->
  has_internal "videoLoaded" (listeners b) = true ->
  let w' := fst (exec (Message "videoLoaded" v) w) in
  emb w' = with_status PlayerStatus.Paused (with_info v (emb w)) /\
  info w' = v /\ playerStatus w' = PlayerStatus.Paused /\ log w' = log w.
Proof.
  intros Hb Hd Hp Hh; cbv zeta.
  destruct (exec_message_emb w b "videoLoaded" v Hb Hd Hp ltac:(destruct v; reflexivity)) as [E L].
  rewrite Hh in E; unfold info, playerStatus; rewrite E.
  split; [reflexivity | split; [reflexivity | split; [reflexivity | exact L]]].
Qed.

(** A [subtitlesChanged] message delivered to a live bus holding the
    internal listener sets [currentSubtitles] to the payload and changes no
    other field of the embed. *)
Theorem subtitlesChanged_sets_currentSubtitles (w : world) (b : EventBus) (v : value) :
  eventBus (emb w) = Some b -> destroyed b = false ->
  plain_listeners "subtitlesChanged" (listeners b) = true ->
  has_internal "subtitlesChanged" (listeners b) = true ->
  let w' := fst (exec (Message "subtitlesChanged" v) w) in
  emb w' = with_subtitles v (emb w) /\ currentSubtitles w' = v /\ log w' = log w.
Proof.
  intros Hb Hd Hp Hh; cbv zeta.
  destruct (exec_message_emb w b "subtitlesChanged" v Hb Hd Hp ltac:(destruct v; reflexivity)) as [E L].
  rewrite Hh in E; unfold currentSubtitles; rewrite E.
  split; [reflexivity | split; [reflexivity | exact L]].
Qed.

(** [isLive] is [undefined] until metadata arrives. After a [videoLoaded]
    message it reads the payload's [isLive] field, and after a
    [webcastLoaded] message with an object payload it reads that payload's
    [isLive] field too (only [status] is dropped). *)
Theorem isLive_reads_loaded_metadata (cfg : VbrickEmbedConfig) (w : world) (b : EventBus)
    (v : value) (fs : list (string * value)) :
  eventBus (emb w) = Some b -> destroyed b = false ->
  plain_listeners "videoLoaded" (listeners b) = true ->
  has_internal "videoLoaded" (listeners b) = true ->
  plain_listeners "webcastLoaded" (listeners b) = true ->
  has_internal "webcastLoaded" (listeners b) = true ->
  isLive (fresh_world cfg) = VUndef /\
  isLive (fst (exec (Message "videoLoaded" v) w)) = get v "isLive" /\
  isLive (fst (exec (Message "webcastLoaded" (VObj fs)) w)) = get (VObj fs) "isLive".
Proof.
  intros Hb Hd Hpv Hhv Hpw Hhw.
  split; [reflexivity|split].
  - destruct (exec_message_emb w b "videoLoaded" v Hb Hd Hpv ltac:(destruct v; reflexivity)) as [E _].
    rewrite Hhv in E; unfold isLive, info; rewrite E; reflexivity.
  - destruct (exec_message_emb w b "webcastLoaded" (VObj fs) Hb Hd Hpw eq_refl) as [E _].
    rewrite Hhw in E; unfold isLive, info; rewrite E; cbn.
    apply filter_lookup_other; discriminate.
Qed.

(** ** The commands *)

(** Before [initialize()] has created the bus, [play], [pause],
    [setVolume], [setSubtitles], [on] and [off] all throw a TypeError
    ([this.eventBus] is [undefined]) and change nothing. *)
Theorem commands_throw_without_bus (w : world) :
  eventBus (emb w) = None ->
  forall c, In c [Play; Pause] \/ (exists v, c = SetVolume v \/ c = SetSubtitles v) \/
            (exists ev l, c = On ev l \/ c = Off ev l) ->
  exec (Host c) w = (w, Throw TypeError).
Proof.
  intros Hb c Hc.
  destruct Hc as [[<- | [<- | []]] | [(v & [-> | ->]) | (ev & l & [-> | ->])]];
    cbn [exec call]; unfold play, pause, setVolume, setSubtitles, on, off, bus_publish, bus_on,
    bus_off, bind, the_bus; rewrite Hb; reflexivity.
Qed.

(** On a live bus, [play()], [pause()], [setVolume(v)] and [setSubtitles(s)]
    each send exactly one message ([playVideo], [pauseVideo],
    [setVolume {volume: v}], [setSubtitles s]) and change nothing else: in
    particular [volume] and [currentSubtitles] are not updated by the
    commands themselves. *)
Theorem commands_send_one_message (w : world) (b : EventBus) (v s : value) :
  eventBus (emb w) = Some b -> destroyed b = false ->
  exec (Host Play) w = (add_log (Sent "playVideo" VUndef) w, Ok RUnit) /\
  exec (Host Pause) w = (add_log (Sent "pauseVideo" VUndef) w, Ok RUnit) /\
  exec (Host (SetVolume v)) w =
    (add_log (Sent "setVolume" (VObj [("volume", v)])) w, Ok RUnit) /\
  exec (Host (SetSubtitles s)) w = (add_log (Sent "setSubtitles" s) w, Ok RUnit).
Proof.
  intros Hb Hd; cbn [exec call];
    unfold play, pause, setVolume, setSubtitles, bus_publish, bind, the_bus, modify, ret;
    rewrite Hb, Hd; repeat split.
Qed.

(** A configuration whose token, if any, is an access token. *)
Definition ok_token (cfg : VbrickEmbedConfig) : Prop :=
  match token cfg with Some t => type t = ACCESS_TOKEN | None => True end.

(** What [initializeToken()] resolves with for such a configuration. *)
Definition token_payload (cfg : VbrickEmbedConfig) : value :=
  match token cfg with None => VUndef | Some t => VObj [("accessToken", VStr (tvalue t))] end.



(** With no token or an access token, a [load] message right after
    [initialize()] resolves the [initialize()] promise at once, without
    waiting for the [authChanged] confirmation; the only message sent is
    [authenticated] with the resolved token, and [playerStatus] stays
    [Initializing]. *)
Theorem initialize_resolves_on_load (cfg : VbrickEmbedConfig) (v : value) :
  ok_token cfg ->
  let w := run (fresh_world cfg) [Host Initialize; Message "load" v] in
  exists p, init (emb w) = Some p /\ promise_state w p = Fulfilled VUndef /\
    log w = [Sent "authenticated" (VObj [("token", token_payload cfg)])] /\
    playerStatus w = PlayerStatus.Initializing.
Proof.
  unfold ok_token, token_payload; intros H.
  destruct cfg as [[[ty tv iss]|] [[|s|s]|]]; cbn [token type] in H |- *; try subst ty;
    vm_compute; eexists; repeat split.
Qed.

(** With no token or an access token, an [error] message [v] right after
    [initialize()] rejects the [initialize()] promise with [v], sets
    [playerStatus] to [Error], publishes the synthetic [error] event and
    emits the local error with cause [v]; [authenticated] is never sent. *)
Theorem initialize_rejects_on_error (cfg : VbrickEmbedConfig) (v : value) :
  ok_token cfg ->
  let w := run (fresh_world cfg) [Host Initialize; Message "error" v] in
  exists p, init (emb w) = Some p /\ promise_state w p = Rejected v /\
    log w = [Sent "error" (VObj [("msg", VStr "initializationFailed")]);
             LocalError "Error loading embed content" v] /\
    playerStatus w = PlayerStatus.Error.
Proof.
  unfold ok_token; intros H.
  destruct cfg as [[[ty tv iss]|] [[|s|s]|]]; cbn [token type] in H |- *; try subst ty;
    vm_compute; eexists; repeat split.
Qed.

(** [destroy()] resets the memoized handshake: a later [initialize()]
    returns a new promise, renders a new iframe that is then the only one in
    the container, and starts a second handshake. *)
Theorem initialize_after_destroy_starts_over (cfg : VbrickEmbedConfig) :
  let w1 := run (fresh_world cfg) [Host Initialize] in
  let w2 := run w1 [Host Destroy; Host Initialize] in
  init (emb w2) <> None /\ init (emb w2) <> init (emb w1) /\
  match init (emb w2) with
  | Some p => snd (step (run w1 [Host Destroy]) (Host Initialize)) = Ok (RPromise p)
  | None => False
  end /\
  iframe (emb w2) <> None /\ iframe (emb w2) <> iframe (emb w1) /\
  container w2 = match iframe (emb w2) with Some f => [f] | None => [] end /\
  length (handshakes w2) = 2.
Proof.
  destruct cfg as [[[ty tv iss]|] [[|s|s]|]]; try destruct ty; vm_compute;
    repeat split; discriminate.
Qed.

(** [updateToken(T)] on an embed never initialized stores [T] and returns
    a promise that rejects: with a TypeError for an access token (there is
    no bus to publish [authChanged] on), with ['Unsupported token type']
    for any other type. Nothing is sent. *)
Theorem updateToken_before_initialize (cfg : VbrickEmbedConfig) (T : VbrickSDKToken) :
  let w' := fst (step (fresh_world cfg) (Host (UpdateToken T))) in
  snd (step (fresh_world cfg) (Host (UpdateToken T))) = Ok (RPromise 0) /\
  token (config (emb w')) = Some T /\ log w' = [] /\
  promise_state w' 0 =
    match type T with
    | ACCESS_TOKEN => Rejected TypeError
    | _ => Rejected (VStr "Unsupported token type")
    end.
Proof.
  destruct cfg as [tk ts]; destruct T as [[] tv iss]; vm_compute; repeat split.
Qed.

(** After [initialize()] and [load], [updateToken(T)] with an access token
    stays pending until a reply: an [authChanged] message resolves it, an
    [error] message [v] rejects it with [v]. *)
Theorem updateToken_reply_settles (cfg : VbrickEmbedConfig) (T : VbrickSDKToken) (v : value) :
  type T = ACCESS_TOKEN ->
  let w0 := run (fresh_world cfg) [Host Initialize; Message "load" VUndef] in
  let w := fst (step w0 (Host (UpdateToken T))) in
  exists p, snd (step w0 (Host (UpdateToken T))) = Ok (RPromise p) /\
    promise_state w p = Pending /\
    promise_state (fst (step w (Message "authChanged" v))) p = Fulfilled VUndef /\
    promise_state (fst (step w (Message "error" v))) p = Rejected v.
Proof.
  intros H; destruct T as [ty tv iss]; cbn in H; subst ty.
  destruct cfg as [[[ty tv' iss']|] [[|s|s]|]]; try destruct ty; vm_compute; eexists; repeat split.
Qed.

Lemma run_nil (w : world) : run w [] = w.
Proof. reflexivity. Qed.

Lemma fire_due (w : world) (id : nat) (t : timer) :
  find_timer id (timers w) = Some t -> N.leb (t_due t) (now w) = true ->
  fire id w = (clearTimeout id ;; run_task (t_task t)) w.
Proof. intros Hf Hl; unfold fire; rewrite Hf, Hl; reflexivity. Qed.

Lemma fire_early (w : world) (id : nat) (t : timer) :
  find_timer id (timers w) = Some t -> N.leb (t_due t) (now w) = false ->
  fire id w = (w, Ok tt).
Proof. intros Hf Hl; unfold fire; rewrite Hf, Hl; reflexivity. Qed.

(** With no token or an access token and [timeoutSeconds = s > 0], with
    [s * 1000] below [2^31] (larger delays wrap in the browser's
    [setTimeout] and fire at once), if no
    [load] or [error] arrives, the handshake timer does nothing before
    [s * 1000] ms have passed; once they have, it rejects [initialize()]
    with the timeout error, sets [playerStatus] to [Error], publishes the
    synthetic [error] event and emits the local error. *)
Theorem initialize_times_out (tk : option VbrickSDKToken) (s : Z) :
  match tk with Some t => type t = ACCESS_TOKEN | None => True end -> (0 < s)%Z ->
  (s * 1000 < 2 ^ 31)%Z ->
  let w1 := run (fresh_world {| token := tk; timeoutSeconds := Some s |}) [Host Initialize] in
  init (emb w1) = Some 9 /\ timer_ids w1 = [8] /\
  (forall d, (d < Z.to_N (s * 1000))%N ->
     promise_state (run w1 [Advance d; FireTimer 8]) 9 = Pending) /\
  (forall d, (Z.to_N (s * 1000) <= d)%N ->
     let w2 := run w1 [Advance d; FireTimer 8] in
     promise_state w2 9 = Rejected (VStr "timeout") /\ playerStatus w2 = PlayerStatus.Error /\
     log w2 = [Sent "error" (VObj [("msg", VStr "initializationFailed")]);
               LocalError "Error loading embed content" (VStr "timeout")]).
Proof.
  intros Htk Hs Hmax; destruct s as [|s|s]; try lia; clear Hs Hmax; cbv zeta.
  assert (A : forall d, let wa := fst (step (run (fresh_world {| token := tk; timeoutSeconds := Some (Z.pos s) |}) [Host Initialize]) (Advance d)) in
            timers wa = [{| t_id := 8; t_due := Z.to_N (Z.pos s * 1000); t_task := AwaitTimeout 5 |}] /\ now wa = d).
  { intros d; destruct tk as [[[] tv iss]|]; cbn in Htk; try discriminate Htk; vm_compute; split; reflexivity. }
  split; [destruct tk as [[[] tv iss]|]; cbn in Htk; try discriminate Htk; vm_compute; reflexivity|].
  split; [destruct tk as [[[] tv iss]|]; cbn in Htk; try discriminate Htk; vm_compute; reflexivity|].
  split; intros d Hd; rewrite run_cons, run_cons, run_nil, step_fst; cbn [exec]; rewrite fst_bind_ret;
    destruct (A d) as [Tw Nw]; cbv zeta in Tw, Nw.
  - rewrite (fire_early _ 8 _ ltac:(rewrite Tw; reflexivity)).
    2:{ rewrite Nw; cbn [t_due]; apply N.leb_gt; exact Hd. }
    destruct tk as [[[] tv iss]|]; cbn in Htk; try discriminate Htk; vm_compute; reflexivity.
  - rewrite (fire_due _ 8 _ ltac:(rewrite Tw; reflexivity)).
    2:{ rewrite Nw; cbn [t_due]; apply N.leb_le; exact Hd. }
    cbn [t_task].
    destruct tk as [[[] tv iss]|]; cbn in Htk; try discriminate Htk; vm_compute; repeat split.
Qed.

Lemma run_all_done (hs : list handshake) (w : world) :
  forallb hs_done hs = true -> run_all handshake_reaction hs w = (w, Ok tt).
Proof.
  revert w; induction hs as [|h hs IH]; intros w H; [reflexivity|].
  cbn [forallb] in H; apply andb_prop in H as [H1 H2].
  cbn [run_all]; unfold bind, handshake_reaction; rewrite H1; exact (IH w H2).
Qed.

Lemma run_all_app {A} (f : A -> M unit) (l1 l2 : list A) (w : world) :
  run_all f (l1 ++ l2) w = (run_all f l1 ;; run_all f l2) w.
Proof.
  revert w; induction l1 as [|x l1 IH]; intros w; [reflexivity|].
  cbn [app run_all]; unfold bind in IH |- *.
  destruct (f x w) as [w' [[]|e]]; [exact (IH w') | reflexivity].
Qed.

(** An [updateToken] call whose body has run to its end. *)
Definition update_done (u : update) : bool :=
  match u_stage u with UDone => true | _ => false end.

Lemma run_all_updates_done (us : list update) (w : world) :
  forallb update_done us = true -> run_all update_reaction us w = (w, Ok tt).
Proof.
  revert w; induction us as [|u us IH]; intros w H; [reflexivity|].
  cbn [forallb] in H; apply andb_prop in H as [H1 H2].
  cbn [run_all]; unfold bind, update_reaction.
  unfold update_done in H1; destruct (u_stage u); try discriminate H1.
  exact (IH w H2).
Qed.

(** On an embed with a live bus, no handshake in progress and every
    earlier [updateToken] call settled, [updateToken(T)] returns a fresh promise
    and stores [T]. For an access token it sends [authChanged] with
    [{accessToken: T.value}] and stays pending; for any other type it sends
    nothing and rejects with ['Unsupported token type']. *)
Theorem updateToken_on_live_embed (w : world) (b : EventBus) (T : VbrickSDKToken) :
  eventBus (emb w) = Some b -> destroyed b = false ->
  forallb hs_done (handshakes w) = true -> forallb update_done (updates w) = true ->
  let w' := fst (step w (Host (UpdateToken T))) in
  snd (step w (Host (UpdateToken T))) = Ok (RPromise (next w)) /\
  token (config (emb w')) = Some T /\
  match type T with
  | ACCESS_TOKEN =>
      log w' = log w ++ [Sent "authChanged" (VObj [("token", VObj [("accessToken", VStr (tvalue T))])])] /\
      promise_state w' (next w) = Pending
  | _ => log w' = log w /\ promise_state w' (next w) = Rejected (VStr "Unsupported token type")
  end.
Proof.
  intros Hb Hd Hh Hu; cbv zeta.
  destruct w as [[ps vol subs inf ifr bus ini cfg] cont lg tms nw aws prs hss ups nxt].
  cbn in Hb, Hh, Hu; subst bus; destruct b as [ls dst]; cbn in Hd; subst dst.
  unfold step; cbn [exec call]; unfold updateToken, bind, modify, fresh, ret, initializeToken.
  cbn [fst snd].
  unfold microtasks, bind; cbn [handshakes map_updates set_promise bump map_emb].
  rewrite run_all_done by exact Hh.
  cbn [updates map_updates]; rewrite !run_all_app; unfold bind.
  rewrite !run_all_updates_done by exact Hu.
  split; [reflexivity|].
  destruct T as [[] tv iss]; cbn; unfold promise_state; cbn.
  all: rewrite !Nat.eqb_refl;
    (split; [reflexivity | split; [reflexivity | try destruct (Nat.eqb nxt (S nxt)); reflexivity]]).
Qed.

(** [getEmbedQuery]: [tk] is [true] exactly when a token is set; with a
    token set, [popupAuth] is the boolean [false] whatever [popupAuth] says;
    [popupAuth] is the string ['true'] exactly when no token is set and
    [popupAuth] is [true]. *)
Theorem getEmbedQuery_token_excludes_popupAuth (c : VideoEmbedConfig) :
  let q := getEmbedQuery c in
  (get q "tk" = VBool true <-> token (core c) <> None) /\
  (token (core c) <> None -> get q "popupAuth" = VBool false) /\
  (get q "popupAuth" = VStr "true" <-> token (core c) = None /\ popupAuth c = Some true).
Proof.
  destruct c as [[tk ts] pa ac ap fc pl hs ho hc hf hp hst sa]; cbv zeta; cbn.
  destruct tk as [t|].
  - split; [split; [intros _ H; discriminate H | reflexivity]|].
    split; [reflexivity|].
    split; [intros H; discriminate H | intros [H _]; discriminate H].
  - split; [split; [intros H; discriminate H | intros H; contradiction H; reflexivity]|].
    split; [intros H; contradiction H; reflexivity|].
    destruct pa as [[]|]; cbn; split; try (intros H; discriminate H); try (intros [_ H]; discriminate H);
      auto.
Qed.

(** * Instances of the further properties on concrete embeds *)

Lemma videoLoaded_sets_info_and_paused_witness :
  eventBus (emb w_webcast) = Some (live_bus w_webcast) /\
  plain_listeners "videoLoaded" (listeners (live_bus w_webcast)) = true /\
  has_internal "videoLoaded" (listeners (live_bus w_webcast)) = true /\
  playerStatus (fst (exec (Message "videoLoaded" (VObj [("isLive", VBool false)])) w_webcast))
    = PlayerStatus.Paused.
Proof.
  assert (Hb : eventBus (emb w_webcast) = Some (live_bus w_webcast)) by (vm_compute; reflexivity).
  assert (Hp : plain_listeners "videoLoaded" (listeners (live_bus w_webcast)) = true)
    by (vm_compute; reflexivity).
  assert (Hh : has_internal "videoLoaded" (listeners (live_bus w_webcast)) = true)
    by (vm_compute; reflexivity).
  split; [exact Hb | split; [exact Hp | split; [exact Hh |]]].
  pose proof (videoLoaded_sets_info_and_paused w_webcast (live_bus w_webcast)
                (VObj [("isLive", VBool false)]) Hb eq_refl Hp Hh) as H.
  cbv zeta in H; exact (proj1 (proj2 (proj2 H))).
Defined.

Lemma subtitlesChanged_sets_currentSubtitles_witness :
  eventBus (emb w_webcast) = Some (live_bus w_webcast) /\
  plain_listeners "subtitlesChanged" (listeners (live_bus w_webcast)) = true /\
  has_internal "subtitlesChanged" (listeners (live_bus w_webcast)) = true /\
  currentSubtitles (fst (exec (Message "subtitlesChanged" (VStr "en")) w_webcast)) = VStr "en".
Proof.
  assert (Hb : eventBus (emb w_webcast) = Some (live_bus w_webcast)) by (vm_compute; reflexivity).
  assert (Hp : plain_listeners "subtitlesChanged" (listeners (live_bus w_webcast)) = true)
    by (vm_compute; reflexivity).
  assert (Hh : has_internal "subtitlesChanged" (listeners (live_bus w_webcast)) = true)
    by (vm_compute; reflexivity).
  split; [exact Hb | split; [exact Hp | split; [exact Hh |]]].
  pose proof (subtitlesChanged_sets_currentSubtitles w_webcast (live_bus w_webcast)
                (VStr "en") Hb eq_refl Hp Hh) as H.
  cbv zeta in H; exact (proj1 (proj2 H)).
Defined.

Lemma isLive_reads_loaded_metadata_witness :
  eventBus (emb w_webcast) = Some (live_bus w_webcast) /\
  isLive (fst (exec (Message "videoLoaded" (VObj [("isLive", VBool true)])) w_webcast))
    = VBool true.
Proof.
  assert (Hb : eventBus (emb w_webcast) = Some (live_bus w_webcast)) by (vm_compute; reflexivity).
  split; [exact Hb |].
  pose proof (isLive_reads_loaded_metadata cfg_no_timeout w_webcast (live_bus w_webcast)
                (VObj [("isLive", VBool true)]) [("isLive", VBool false)] Hb eq_refl
                ltac:(vm_compute; reflexivity) ltac:(vm_compute; reflexivity)
                ltac:(vm_compute; reflexivity) ltac:(vm_compute; reflexivity)) as H.
  exact (proj1 (proj2 H)).
Defined.

Lemma commands_throw_without_bus_witness :
  eventBus (emb (fresh_world cfg_no_timeout)) = None /\
  exec (Host (SetVolume (VNum 1))) (fresh_world cfg_no_timeout)
    = (fresh_world cfg_no_timeout, Throw TypeError).
Proof.
  assert (Hb : eventBus (emb (fresh_world cfg_no_timeout)) = None) by reflexivity.
  split; [exact Hb |].
  apply (commands_throw_without_bus (fresh_world cfg_no_timeout) Hb).
  right; left; exists (VNum 1); left; reflexivity.
Defined.

Lemma commands_send_one_message_witness :
  eventBus (emb w_loaded) = Some (live_bus w_loaded) /\
  exec (Host Play) w_loaded = (add_log (Sent "playVideo" VUndef) w_loaded, Ok RUnit).
Proof.
  assert (Hb : eventBus (emb w_loaded) = Some (live_bus w_loaded)) by (vm_compute; reflexivity).
  split; [exact Hb |].
  exact (proj1 (commands_send_one_message w_loaded (live_bus w_loaded) VUndef VUndef Hb eq_refl)).
Defined.

Lemma initialize_resolves_on_load_witness :
  ok_token cfg_no_timeout /\
  exists p, init (emb (run (fresh_world cfg_no_timeout) [Host Initialize; Message "load" VUndef]))
              = Some p /\
            promise_state (run (fresh_world cfg_no_timeout) [Host Initialize; Message "load" VUndef]) p
              = Fulfilled VUndef.
Proof.
  assert (Ht : ok_token cfg_no_timeout) by exact I.
  split; [exact Ht |].
  destruct (initialize_resolves_on_load cfg_no_timeout VUndef Ht) as (p & Hi & Hp & _).
  exists p; split; [exact Hi | exact Hp].
Defined.

Lemma initialize_rejects_on_error_witness :
  ok_token cfg_no_timeout /\
  playerStatus (run (fresh_world cfg_no_timeout) [Host Initialize; Message "error" (VStr "e")])
    = PlayerStatus.Error.
Proof.
  assert (Ht : ok_token cfg_no_timeout) by exact I.
  split; [exact Ht |].
  destruct (initialize_rejects_on_error cfg_no_timeout (VStr "e") Ht) as (p & _ & _ & _ & Hs).
  exact Hs.
Defined.

Lemma initialize_times_out_witness :
  (0 < 30)%Z /\ (30 * 1000 < 2 ^ 31)%Z /\
  promise_state (run (run (fresh_world {| token := None; timeoutSeconds := Some 30%Z |})
                          [Host Initialize]) [Advance 30000; FireTimer 8]) 9
    = Rejected (VStr "timeout").
Proof.
  split; [lia | split; [lia |]].
  destruct (initialize_times_out None 30%Z I ltac:(lia) ltac:(lia)) as (_ & _ & _ & H).
  pose proof (H 30000%N ltac:(vm_compute; intros E; discriminate E)) as H2.
  cbv zeta in H2; exact (proj1 H2).
Defined.

Lemma updateToken_on_live_embed_witness :
  eventBus (emb w_loaded) = Some (live_bus w_loaded) /\
  forallb hs_done (handshakes w_loaded) = true /\ forallb update_done (updates w_loaded) = true /\
  token (config (emb (fst (step w_loaded (Host (UpdateToken token_t2)))))) = Some token_t2.
Proof.
  assert (Hb : eventBus (emb w_loaded) = Some (live_bus w_loaded)) by (vm_compute; reflexivity).
  assert (Hh : forallb hs_done (handshakes w_loaded) = true) by (vm_compute; reflexivity).
  assert (Hu : forallb update_done (updates w_loaded) = true) by (vm_compute; reflexivity).
  split; [exact Hb | split; [exact Hh | split; [exact Hu |]]].
  pose proof (updateToken_on_live_embed w_loaded (live_bus w_loaded) token_t2 Hb eq_refl Hh Hu) as H.
  cbv zeta in H; exact (proj1 (proj2 H)).
Defined.

Lemma updateToken_reply_settles_witness :
  type token_t2 = ACCESS_TOKEN /\
  exists p, promise_state (fst (step (fst (step w_loaded (Host (UpdateToken token_t2))))
                                      (Message "authChanged" VUndef))) p = Fulfilled VUndef.
Proof.
  assert (Ht : type token_t2 = ACCESS_TOKEN) by reflexivity.
  split; [exact Ht |].
  destruct (updateToken_reply_settles cfg_no_timeout token_t2 VUndef Ht) as (p & _ & _ & Hf & _).
  exists p; exact Hf.
Defined.
